(** * Stack traces chained across isolate boundaries

    A shallow embedding of [src/isolate/stack_trace.cc] (namespace [ivm]):
    the renderer of a captured stack ([RenderSingleStack]), the recursive
    renderer of chain data ([RenderErrorStack]), the [stack] accessor
    ([ErrorStackGetter]), its installer ([AttachStackGetter]) and the two
    entry points [AttachStack] and [ChainStack].

    The V8 embedder API the file calls is modelled in [Module v8]:
    JavaScript strings are sequences of UTF-16 code units, C strings and
    [std::string] are byte strings, handles that may be empty are options. *)

From Stdlib Require Import ZArith List Bool Ascii String Lia.
From Stdlib Require Import Numbers.DecimalString.
Import ListNotations.

Open Scope list_scope.
Open Scope string_scope.
Open Scope Z_scope.

(** ** Results of a C++ call *)

(** A call either returns, or leaves through the C++ exception that
    [Unmaybe] raises when a JavaScript exception is pending, or reaches
    undefined behaviour (a null or mistyped pointer is dereferenced). *)
Inductive Outcome (A : Type) : Type :=
| Returns (a : A)
| Throws
| Undefined_behaviour.

Arguments Returns {A} a.
Arguments Throws {A}.
Arguments Undefined_behaviour {A}.

Definition bind {A B : Type} (m : Outcome A) (k : A -> Outcome B) : Outcome B :=
  match m with
  | Returns a => k a
  | Throws => Throws
  | Undefined_behaviour => Undefined_behaviour
  end.

Notation "x <- m ;; k" := (bind m (fun x => k))
  (at level 61, m at next level, right associativity).

(** ** The V8 API, as far as stack_trace.cc uses it *)
Module v8.

(** [Local<T>], [MaybeLocal<T>] and [Persistent<T>]: a handle that is
    either empty or refers to a [T]. *)
Definition Local (T : Type) : Type := option T.
Definition MaybeLocal (T : Type) : Type := option T.
Definition Persistent (T : Type) : Type := option T.

Definition IsEmpty {T : Type} (h : Local T) : bool :=
  match h with
  | None => true
  | Some _ => false
  end.

(** A JavaScript string: its UTF-16 code units, each in [0, 0xFFFF]. *)
Definition JSString : Type := list Z.

(** [String::Empty] and [String::Concat]. *)
Definition Empty : JSString := [].
Definition Concat (left right : JSString) : JSString := (left ++ right)%list.

(** *** Bytes and C strings *)

Definition byte_of_Z (z : Z) : ascii := ascii_of_N (Z.to_N z).
Definition Z_of_byte (b : ascii) : Z := Z.of_N (N_of_ascii b).

Definition NUL : ascii := "000"%char.
Definition LF : ascii := "010"%char.
Definition SPACE : ascii := " "%char.

(** What a [const char*] into a buffer denotes: the bytes before the
    first NUL. *)
Fixpoint c_str (buffer : string) : string :=
  match buffer with
  | EmptyString => EmptyString
  | String b rest => if Ascii.eqb b NUL then EmptyString else String b (c_str rest)
  end.

(** [strchr] on a C string: the suffix that starts at the first
    occurrence of [ch], or the null pointer. *)
Fixpoint strchr (s : string) (ch : ascii) : option string :=
  match s with
  | EmptyString => None
  | String b rest => if Ascii.eqb b ch then Some s else strchr rest ch
  end.

(** *** Conversions between JavaScript strings and bytes *)

Definition is_lead_surrogate (c : Z) : bool := (0xD800 <=? c) && (c <=? 0xDBFF).
Definition is_trail_surrogate (c : Z) : bool := (0xDC00 <=? c) && (c <=? 0xDFFF).

Definition continuation (cp shift : Z) : ascii :=
  byte_of_Z (Z.lor 0x80 (Z.land (Z.shiftr cp shift) 0x3F)).

(** The UTF-8 bytes of one code point (a lone surrogate is written in the
    same three-byte form as any other 16-bit value). *)
Definition utf8_of_code_point (cp : Z) : string :=
  if cp <? 0x80 then
    String (byte_of_Z cp) ""
  else if cp <? 0x800 then
    String (byte_of_Z (Z.lor 0xC0 (Z.shiftr cp 6)))
      (String (continuation cp 0) "")
  else if cp <? 0x10000 then
    String (byte_of_Z (Z.lor 0xE0 (Z.shiftr cp 12)))
      (String (continuation cp 6) (String (continuation cp 0) ""))
  else
    String (byte_of_Z (Z.lor 0xF0 (Z.shiftr cp 18)))
      (String (continuation cp 12)
         (String (continuation cp 6) (String (continuation cp 0) ""))).

Definition combine_surrogates (lead trail : Z) : Z :=
  0x10000 + Z.shiftl (lead - 0xD800) 10 + (trail - 0xDC00).

(** [String::WriteUtf8]: code units to UTF-8, surrogate pairs combined. *)
Fixpoint WriteUtf8 (s : JSString) : string :=
  match s with
  | [] => ""
  | c :: rest =>
      match rest with
      | d :: rest' =>
          if is_lead_surrogate c && is_trail_surrogate d
          then utf8_of_code_point (combine_surrogates c d) ++ WriteUtf8 rest'
          else utf8_of_code_point c ++ WriteUtf8 rest
      | [] => utf8_of_code_point c
      end
  end.

(** [String::Utf8Value]: the buffer ([str_], null for an empty handle)
    and its length in bytes. *)
Record Utf8Value : Type := {
  str_ : option string;
  length_ : nat
}.

Definition Utf8Value_of (obj : Local JSString) : Utf8Value :=
  match obj with
  | None => {| str_ := None; length_ := 0 |}
  | Some s => {| str_ := Some (WriteUtf8 s); length_ := String.length (WriteUtf8 s) |}
  end.

(** [operator*] of a [Utf8Value], read as a C string. *)
Definition as_c_str (u : Utf8Value) : option string := option_map c_str (str_ u).

(** [String::NewFromOneByte] with the default length: every byte of the
    C string becomes the code unit of the same value (Latin-1). *)
Fixpoint NewFromOneByte (data : string) : JSString :=
  match data with
  | EmptyString => []
  | String b rest => Z_of_byte b :: NewFromOneByte rest
  end.

(** The code units of a decoded code point. *)
Definition utf16_of_code_point (cp : Z) : JSString :=
  if cp <? 0x10000 then [cp]
  else [0xD800 + Z.shiftr (cp - 0x10000) 10; 0xDC00 + Z.land (cp - 0x10000) 0x3FF].

Definition REPLACEMENT : Z := 0xFFFD.

(** State of the UTF-8 decoder between two bytes: the bits gathered so
    far, how many continuation bytes are still due, and the range the
    next one has to lie in. *)
Record Utf8State : Type := {
  code_point : Z;
  bytes_needed : nat;
  lower : Z;
  upper : Z
}.

Definition utf8_start (b : Z) : JSString * option Utf8State :=
  if b <=? 0x7F then ([b], None)
  else if (0xC2 <=? b) && (b <=? 0xDF) then
    ([], Some {| code_point := Z.land b 0x1F; bytes_needed := 1; lower := 0x80; upper := 0xBF |})
  else if (0xE0 <=? b) && (b <=? 0xEF) then
    ([], Some {| code_point := Z.land b 0xF; bytes_needed := 2;
                 lower := if b =? 0xE0 then 0xA0 else 0x80;
                 upper := if b =? 0xED then 0x9F else 0xBF |})
  else if (0xF0 <=? b) && (b <=? 0xF4) then
    ([], Some {| code_point := Z.land b 0x7; bytes_needed := 3;
                 lower := if b =? 0xF0 then 0x90 else 0x80;
                 upper := if b =? 0xF4 then 0x8F else 0xBF |})
  else ([REPLACEMENT], None).

Definition utf8_step (state : option Utf8State) (b : Z) : JSString * option Utf8State :=
  match state with
  | None => utf8_start b
  | Some st =>
      if (lower st <=? b) && (b <=? upper st) then
        let cp := Z.lor (Z.shiftl (code_point st) 6) (Z.land b 0x3F) in
        match bytes_needed st with
        | S (S k) =>
            ([], Some {| code_point := cp; bytes_needed := S k; lower := 0x80; upper := 0xBF |})
        | _ => (utf16_of_code_point cp, None)
        end
      else
        let (units, next) := utf8_start b in (REPLACEMENT :: units, next)
  end.

Fixpoint utf8_decode (state : option Utf8State) (data : string) : JSString :=
  match data with
  | EmptyString =>
      match state with
      | None => []
      | Some _ => [REPLACEMENT]
      end
  | String b rest =>
      let (units, next) := utf8_step state (Z_of_byte b) in
      (units ++ utf8_decode next rest)%list
  end.

(** [String::NewFromUtf8] with the default length: the C string decoded
    as UTF-8, every ill-formed sequence replaced by U+FFFD. *)
Definition NewFromUtf8 (data : string) : JSString := utf8_decode None data.

(** [operator<<] of a [std::stringstream] on an [int]. *)
Definition decimal (n : Z) : string := NilEmpty.string_of_int (Z.to_int n).

(** [Message::kNoScriptIdInfo]. *)
Definition kNoScriptIdInfo : Z := 0.

(** [v8::StackFrame], by what its accessors return. *)
Record StackFrame : Type := {
  GetScriptName : Local JSString;
  GetFunctionName : Local JSString;
  GetLineNumber : Z;
  GetColumn : Z;
  IsEval : bool;
  GetScriptId : Z
}.

(** [v8::StackTrace]: the frames, innermost first. *)
Record StackTrace : Type := {
  frames : list StackFrame
}.

Definition GetFrameCount (stack_trace : StackTrace) : nat :=
  List.length (frames stack_trace).

Definition GetFrame (stack_trace : StackTrace) (index : nat) : Local StackFrame :=
  nth_error (frames stack_trace) index.

(** [PropertyAttribute]: [None] is the empty set of flags. *)
Inductive PropertyAttribute : Type := ReadOnly | DontEnum | DontDelete.

Definition PropertyAttribute_eqb (a b : PropertyAttribute) : bool :=
  match a, b with
  | ReadOnly, ReadOnly | DontEnum, DontEnum | DontDelete, DontDelete => true
  | _, _ => false
  end.

Definition has_attribute (flag : PropertyAttribute) (attributes : list PropertyAttribute) : bool :=
  existsb (PropertyAttribute_eqb flag) attributes.

Inductive AccessControl : Type := DEFAULT | ALL_CAN_READ | ALL_CAN_WRITE.

(** The current context, by the one thing the calls below take from it:
    whether the code that runs in it is strict, which decides how a
    refused definition of a property is answered. *)
Inductive LanguageMode : Type := Sloppy | Strict.

Record Context : Type := {
  language_mode : LanguageMode
}.

End v8.

Import v8.

(** ** stack_trace.cc *)
Module ivm.

(** Modelled from the spec: the class declaration of [StackTraceHolder]
    (stack_trace.h is not part of the sources): "a small host-visible
    object wrapping a Capture", here the persistent handle the constructor
    initialises from [stack_handle]. *)
Record StackTraceHolder : Type := {
  stack_trace : Persistent StackTrace
}.

Definition StackTraceHolder_new (stack_handle : Local StackTrace) : StackTraceHolder :=
  {| stack_trace := stack_handle |}.

(** A JavaScript value, by the shapes the file tells apart: strings,
    arrays, instances of the [StackTraceHolder] class, and the values that
    are none of these. *)
#[warnings="-register-all"]
Inductive Value : Type :=
| Undefined
| Null
| Str (s : JSString)
| Array (elements : list Value)
| HolderInstance (that : StackTraceHolder)
| PlainObject.

Definition IsUndefined (v : Value) : bool :=
  match v with
  | Undefined => true
  | _ => false
  end.

Definition IsString (v : Value) : bool :=
  match v with
  | Str _ => true
  | _ => false
  end.

Definition IsArray (v : Value) : bool :=
  match v with
  | Array _ => true
  | _ => false
  end.

(** [Array::Get]: the element, [undefined] past the end. *)
Definition Array_Get (elements : list Value) (index : nat) : Value :=
  nth index elements Undefined.

(** [Array::New(isolate, 2)] followed by the two [Set] calls. *)
Definition Array_pair (element0 element1 : Value) : Value :=
  Array [element0; element1].

(** Modelled from the spec: [Unmaybe] (not part of the sources) unpacks a
    [Maybe]; an empty one means a JavaScript exception is pending and is
    turned into a C++ exception. *)
Definition Unmaybe {T : Type} (maybe : MaybeLocal T) : Outcome T :=
  match maybe with
  | Some value => Returns value
  | None => Throws
  end.

(** Modelled from the spec: [Deref] (not part of the sources) makes a
    local handle from a persistent one; the local handle is empty when
    the persistent one no longer refers to anything ("dereferencing
    fails"). *)
Definition Deref {T : Type} (handle : Persistent T) : Local T := handle.

(** Modelled from the spec: [ClassHandle::NewInstance] and
    [ClassHandle::Unwrap] (class_handle.h is not part of the sources):
    "exactly one Holder per Capture"; unwrapping gives back the C++ object
    of an instance and has no object to give for any other value. *)
Definition NewInstance (stack : Local StackTrace) : Value :=
  HolderInstance (StackTraceHolder_new stack).

Definition Unwrap (handle : Value) : option StackTraceHolder :=
  match handle with
  | HolderInstance that => Some that
  | _ => None
  end.

(** Modelled from the spec: [v8_string] (not part of the sources) makes a
    JavaScript string from a C literal. *)
Definition v8_string (literal : string) : JSString := NewFromOneByte (c_str literal).

(** *** RenderSingleStack *)

(** The [std::stringstream] of [RenderSingleStack]: its buffer, or
    undefined behaviour once a null [char*] was inserted. *)
Definition stringstream : Type := Outcome string.

Definition insert (ss : stringstream) (text : string) : stringstream :=
  buffer <- ss ;; Returns (buffer ++ text).

Definition insert_int (ss : stringstream) (n : Z) : stringstream :=
  buffer <- ss ;; Returns (buffer ++ decimal n).

Definition insert_c_str (ss : stringstream) (s : Utf8Value) : stringstream :=
  buffer <- ss ;;
  match as_c_str s with
  | None => Undefined_behaviour
  | Some text => Returns (buffer ++ text)
  end.

Notation "ss << text" := (insert ss text) (at level 50, left associativity).
Notation "ss <<# n" := (insert_int ss n) (at level 50, left associativity).
Notation "ss <<* s" := (insert_c_str ss s) (at level 50, left associativity).

(** The body of the loop over the frames. *)
Definition render_frame (frame : StackFrame) (ss : stringstream) : stringstream :=
  let script_name := Utf8Value_of (GetScriptName frame) in
  let line_number := GetLineNumber frame in
  let column := GetColumn frame in
  if IsEval frame then
    if GetScriptId frame =? kNoScriptIdInfo then
      ss << String LF "    at [eval]:" <<# line_number << ":" <<# column
    else
      ss << String LF "    at [eval] (" <<* script_name << ":" <<# line_number << ":" <<# column
  else
    let fn_name := Utf8Value_of (GetFunctionName frame) in
    if Nat.eqb (length_ fn_name) 0 then
      ss << String LF "    at " <<* script_name << ":" <<# line_number << ":" <<# column
    else
      ss << String LF "    at " <<* fn_name << " (" <<* script_name << ":" <<# line_number
         << ":" <<# column << ")".

(** [for (int ii = ...; ii < size; ++ii)], with [remaining = size - ii]. *)
Fixpoint frames_loop (stack_trace : StackTrace) (ii remaining : nat) (ss : stringstream)
  : stringstream :=
  match remaining with
  | O => ss
  | S remaining' =>
      match GetFrame stack_trace ii with
      | None => Undefined_behaviour
      | Some frame => frames_loop stack_trace (S ii) remaining' (render_frame frame ss)
      end
  end.

Definition RenderSingleStack (stack_trace : Local StackTrace) : Outcome string :=
  match stack_trace with
  | None => Undefined_behaviour
  | Some trace =>
      let size := GetFrameCount trace in
      frames_loop trace 0 size (Returns "")
  end.

(** *** RenderErrorStack *)

Definition boundary : string := String LF "    at (<isolated-vm boundary>)".

(** [c_str[i]]; the terminating NUL is all there is past the text. *)
Definition char_at (text : string) (i : nat) : ascii :=
  match String.get i text with
  | Some b => b
  | None => NUL
  end.

(** The branch for a plain string. *)
Definition render_string (data : JSString) : Outcome JSString :=
  let string_value := Utf8Value_of (Some data) in
  match as_c_str string_value with
  | None => Undefined_behaviour
  | Some text =>
      if Ascii.eqb (char_at text 0) SPACE && Ascii.eqb (char_at text 1) SPACE
         && Ascii.eqb (char_at text 2) SPACE && Ascii.eqb (char_at text 3) SPACE
      then Returns data
      else
        match strchr text LF with
        | None => Returns Empty
        | Some newline => Returns (NewFromOneByte newline)
        end
  end.

(** The last branch: whatever is neither a string nor an array is taken
    for a [StackTraceHolder] instance. *)
Definition render_holder (data : Value) : Outcome JSString :=
  match Unwrap data with
  | None => Undefined_behaviour
  | Some that =>
      let trace := Deref (stack_trace that) in
      rendered <- RenderSingleStack trace ;;
      Returns (NewFromUtf8 (c_str rendered))
  end.

(** An array element that is missing reads as [undefined], which is
    neither a string nor an array and so meets the last branch. *)
Fixpoint RenderErrorStack (data : Value) : Outcome JSString :=
  match data with
  | Str s => render_string s
  | Array elements =>
      let older :=
        match elements with
        | _ :: element1 :: _ => RenderErrorStack element1
        | _ => render_holder Undefined
        end in
      let newer :=
        match elements with
        | element0 :: _ => RenderErrorStack element0
        | [] => render_holder Undefined
        end in
      rendered_older <- older ;;
      rendered_newer <- newer ;;
      Returns (Concat (Concat rendered_older (NewFromOneByte boundary)) rendered_newer)
  | _ => render_holder data
  end.

(** *** The error object and its [stack] property *)

(** The native getters and setters an accessor can name; the file has
    one getter and passes [nullptr] for the setter. *)
Inductive AccessorNameGetterCallback : Type := ErrorStackGetter_callback.
Inductive AccessorNameSetterCallback : Type := .

(** What a script can reach of an error besides [stack]: the name of its
    constructor, its message (as [Get] and [ToString] yield it) and
    whether properties can still be added. *)
Record ScriptView : Type := {
  view_constructor_name : JSString;
  view_message : MaybeLocal JSString;
  view_extensible : bool
}.

(** What a getter written in script does to the [stack] property it was
    called for. *)
Inductive StackChange : Type :=
| KeepsStack
| DeletesStack
| RedefinesStack (value : Value) (attributes : list PropertyAttribute).

(** A getter written in script, by what a run of it on the error does:
    the value it returns (nothing when it raises), what it leaves of the
    fields a script can reach, and what it does to [stack]. *)
Definition ScriptGetter : Type := ScriptView -> MaybeLocal Value * ScriptView * StackChange.

Inductive Property : Type :=
| DataProperty (value : Value) (attributes : list PropertyAttribute)
| AccessorProperty (getter : AccessorNameGetterCallback)
    (setter : option AccessorNameSetterCallback)
    (data : Local Value) (settings : AccessControl)
    (attributes : list PropertyAttribute)
| ScriptAccessor (getter : ScriptGetter) (attributes : list PropertyAttribute).

Definition attributes_of (property : Property) : list PropertyAttribute :=
  match property with
  | DataProperty _ attributes => attributes
  | AccessorProperty _ _ _ _ attributes => attributes
  | ScriptAccessor _ attributes => attributes
  end.

Definition configurable (property : Property) : bool :=
  negb (has_attribute DontDelete (attributes_of property)).

(** The error object, by what the file reads and writes on it:
    [GetConstructorName]; what [Get("message")] followed by [ToString]
    yields (nothing when either raises); the value under the private
    symbol of [GetPrivateStackSymbol] ([undefined] when never set); the
    trace [Exception::GetStackTrace] finds; its own [stack] property; the
    [stack] property its prototype chain offers; and whether it is
    extensible. *)
Record Object : Type := {
  GetConstructorName : JSString;
  message : MaybeLocal JSString;
  private_stack : Value;
  native_stack_trace : Local StackTrace;
  stack_property : option Property;
  inherited_stack : option Property;
  extensible : bool
}.

Definition GetPrivate (object : Object) : Value := private_stack object.

Definition with_private_stack (object : Object) (value : Value) : Object :=
  {| GetConstructorName := GetConstructorName object;
     message := message object;
     private_stack := value;
     native_stack_trace := native_stack_trace object;
     stack_property := stack_property object;
     inherited_stack := inherited_stack object;
     extensible := extensible object |}.

Definition with_stack_property (object : Object) (property : option Property) : Object :=
  {| GetConstructorName := GetConstructorName object;
     message := message object;
     private_stack := private_stack object;
     native_stack_trace := native_stack_trace object;
     stack_property := property;
     inherited_stack := inherited_stack object;
     extensible := extensible object |}.

(** Assignment to [error.message] by a script. *)
Definition set_message (object : Object) (text : MaybeLocal JSString) : Object :=
  {| GetConstructorName := GetConstructorName object;
     message := text;
     private_stack := private_stack object;
     native_stack_trace := native_stack_trace object;
     stack_property := stack_property object;
     inherited_stack := inherited_stack object;
     extensible := extensible object |}.

(** A call that works on the error in place: how it ended, and the error
    as the call left it. *)
Definition Call (A : Type) : Type := (Outcome A * Object)%type.

Definition and_then {A B : Type} (call : Call A) (next : A -> Object -> Call B) : Call B :=
  match call with
  | (Returns a, object) => next a object
  | (Throws, object) => (Throws, object)
  | (Undefined_behaviour, object) => (Undefined_behaviour, object)
  end.

(** [Unmaybe] on the answer of a call that works on the error. *)
Definition Unmaybe_call {A : Type} (answer : MaybeLocal A * Object) : Call A :=
  (Unmaybe (fst answer), snd answer).

(** [Object::SetPrivate]: private symbols are stored whether or not the
    object is extensible. *)
Definition SetPrivate (object : Object) (value : Value) : MaybeLocal bool * Object :=
  (Some true, with_private_stack object value).

(** Whether the object takes a new definition of ["stack"]: its own
    property has to be configurable, and without one the object has to
    be extensible. *)
Definition accepts_definition (object : Object) : bool :=
  match stack_property object with
  | Some property => configurable property
  | None => extensible object
  end.

(** [Object::SetAccessor] for the name ["stack"]. An object that does not
    take the definition is left as it is, and the answer is [false], or
    nothing with an exception pending when the calling code is strict. *)
Definition SetAccessor (context : Context) (object : Object)
    (getter : AccessorNameGetterCallback)
    (setter : option AccessorNameSetterCallback) (data : Local Value)
    (settings : AccessControl) (attributes : list PropertyAttribute)
  : MaybeLocal bool * Object :=
  if accepts_definition object then
    (Some true,
     with_stack_property object
       (Some (AccessorProperty getter setter data settings attributes)))
  else
    match language_mode context with
    | Sloppy => (Some false, object)
    | Strict => (None, object)
    end.

(** Modelled from the spec: [FunctorRunners::RunCallback]
    (functor_runners.h is not part of the sources) runs the functor, makes
    its value the return value of the callback and lets a pending
    JavaScript exception propagate to the reader of the property. *)
Definition RunCallback (functor : Outcome Value) : Outcome Value := functor.

Definition ErrorStackGetter (This : Object) : Outcome Value :=
  RunCallback (
    let holder := This in
    text <- Unmaybe (message This) ;;
    rendered <- RenderErrorStack (GetPrivate holder) ;;
    Returns (Str (Concat
                    (Concat (GetConstructorName holder) (v8_string ": "))
                    (Concat text rendered)))).

Definition view_of (object : Object) : ScriptView :=
  {| view_constructor_name := GetConstructorName object;
     view_message := message object;
     view_extensible := extensible object |}.

(** The error after a run of a script getter. *)
Definition apply_script (object : Object) (view : ScriptView) (change : StackChange) : Object :=
  {| GetConstructorName := view_constructor_name view;
     message := view_message view;
     private_stack := private_stack object;
     native_stack_trace := native_stack_trace object;
     stack_property :=
       match change with
       | KeepsStack => stack_property object
       | DeletesStack => None
       | RedefinesStack value attributes => Some (DataProperty value attributes)
       end;
     inherited_stack := inherited_stack object;
     extensible := view_extensible view |}.

(** Reading one property with the error as receiver. *)
Definition Get_property (property : Property) (receiver : Object) : Call Value :=
  match property with
  | DataProperty value _ => (Returns value, receiver)
  | AccessorProperty ErrorStackGetter_callback _ _ _ _ =>
      (ErrorStackGetter receiver, receiver)
  | ScriptAccessor getter _ =>
      let '(result, view, change) := getter (view_of receiver) in
      (Unmaybe result, apply_script receiver view change)
  end.

(** [Object::Get] for the name ["stack"], through [Unmaybe]: the own
    property, else the one of the prototype chain, else [undefined]. *)
Definition Get_stack (object : Object) : Call Value :=
  match stack_property object with
  | Some property => Get_property property object
  | None =>
      match inherited_stack object with
      | Some property => Get_property property object
      | None => (Returns Undefined, object)
      end
  end.

Definition AttachStackGetter (context : Context) (error : Object) (data : Value) : Call unit :=
  and_then (Unmaybe_call (SetPrivate error data)) (fun _ error =>
  and_then (Unmaybe_call
              (SetAccessor context error ErrorStackGetter_callback None None
                 DEFAULT [DontEnum])) (fun _ error =>
  (Returns tt, error))).

Definition AttachStack (context : Context) (error : Object) (stack : Local StackTrace)
  : Call unit :=
  AttachStackGetter context error (NewInstance stack).

Definition ChainStack (context : Context) (error : Object) (stack : Local StackTrace)
  : Call unit :=
  let existing_data := GetPrivate error in
  let attach_pair (error : Object) (existing_data : Value) : Call unit :=
    let pair := Array_pair (NewInstance stack) existing_data in
    AttachStackGetter context error pair in
  if IsUndefined existing_data then
    let existing_stack := native_stack_trace error in
    if IsEmpty existing_stack then
      and_then (Get_stack error) (fun existing_data error =>
        if IsUndefined existing_data || negb (IsString existing_data)
        then AttachStack context error stack
        else attach_pair error existing_data)
    else
      attach_pair error (NewInstance existing_stack)
  else attach_pair error existing_data.

End ivm.

Import ivm.

(** ** The format of a rendered capture, in the words of the specification *)

(** The text a name contributes to a line: its UTF-8 bytes read as a C
    string, nothing for an absent name. *)
Definition name_text (name : Local JSString) : string :=
  match name with
  | None => ""
  | Some s => c_str (WriteUtf8 s)
  end.

Definition is_synthetic (frame : StackFrame) : bool := IsEval frame.

Definition no_script_id (frame : StackFrame) : bool :=
  GetScriptId frame =? kNoScriptIdInfo.

Definition no_function_name (frame : StackFrame) : bool :=
  match GetFunctionName frame with
  | None => true
  | Some [] => true
  | Some (_ :: _) => false
  end.

(** Newline, four spaces and "at ". *)
Definition line_prefix : string := String LF "    at ".

(** [<script>:<line>:<col>] *)
Definition location (frame : StackFrame) : string :=
  name_text (GetScriptName frame) ++ ":" ++ decimal (GetLineNumber frame)
  ++ ":" ++ decimal (GetColumn frame).

(** The four cases; [open] is what stands between the function name and
    the location in the fourth. *)
Definition frame_line_with (open : string) (frame : StackFrame) : string :=
  if is_synthetic frame then
    if no_script_id frame then
      line_prefix ++ "[eval]:" ++ decimal (GetLineNumber frame) ++ ":"
      ++ decimal (GetColumn frame)
    else
      line_prefix ++ "[eval] (" ++ location frame
  else
    if no_function_name frame then
      line_prefix ++ location frame
    else
      line_prefix ++ name_text (GetFunctionName frame) ++ open ++ location frame ++ ")".

(** The fourth case as [at <function>(<script>:<line>:<col>)]. *)
Definition claimed_frame_line : StackFrame -> string := frame_line_with "(".

(** The fourth case as [at <function> (<script>:<line>:<col>)]. *)
Definition frame_line : StackFrame -> string := frame_line_with " (".

Fixpoint lines (line : StackFrame -> string) (captured : list StackFrame) : string :=
  match captured with
  | [] => ""
  | frame :: rest => line frame ++ lines line rest
  end.

(** A frame whose line names the script has a script name to print. *)
Definition names_script (frame : StackFrame) : bool :=
  negb (is_synthetic frame && no_script_id frame).

Definition script_name_present (frame : StackFrame) : bool :=
  implb (names_script frame) (negb (IsEmpty (GetScriptName frame))).

(** ** Property descriptors *)

Definition enumerable (property : Property) : bool :=
  negb (has_attribute DontEnum (attributes_of property)).

Definition is_computed (property : Property) : bool :=
  match property with
  | DataProperty _ _ => false
  | AccessorProperty _ _ _ _ _ => true
  | ScriptAccessor _ _ => true
  end.

(** A property defined through [SetAccessor]. *)
Definition is_native_accessor (property : Property) : bool :=
  match property with
  | AccessorProperty _ _ _ _ _ => true
  | _ => false
  end.

Definition setter_of (property : Property) : option AccessorNameSetterCallback :=
  match property with
  | DataProperty _ _ => None
  | AccessorProperty _ setter _ _ _ => setter
  | ScriptAccessor _ _ => None
  end.

(** The property [AttachStackGetter] defines. *)
Definition stack_accessor : Property :=
  AccessorProperty ErrorStackGetter_callback None None DEFAULT [DontEnum].

Definition has_stack_accessor (error : Object) : bool :=
  match stack_property error with
  | Some property => is_native_accessor property
  | None => false
  end.

(** [Object::Set] for the name ["stack"], as an assignment
    [error.stack = value] by a script does it, and the error it leaves: a
    writable data property takes the value; a property defined through
    [SetAccessor] hands the value to its setter and, having none,
    swallows the assignment; without an own property the value lands in
    a new own property if the prototype chain and extensibility allow.
    Nothing is said where a setter written in script would run. *)
Definition Set_stack (object : Object) (value : Value) : option Object :=
  match stack_property object with
  | Some (DataProperty _ attributes) =>
      if has_attribute ReadOnly attributes then Some object
      else Some (with_stack_property object (Some (DataProperty value attributes)))
  | Some (AccessorProperty _ None _ _ _) => Some object
  | Some (AccessorProperty _ (Some setter) _ _ _) => match setter with end
  | Some (ScriptAccessor _ _) => None
  | None =>
      match inherited_stack object with
      | Some (ScriptAccessor _ _) => None
      | Some (AccessorProperty _ _ _ _ _) => Some object
      | Some (DataProperty _ attributes) =>
          if has_attribute ReadOnly attributes || negb (extensible object) then Some object
          else Some (with_stack_property object (Some (DataProperty value [])))
      | None =>
          if extensible object
          then Some (with_stack_property object (Some (DataProperty value [])))
          else Some object
      end
  end.

(** A descriptor that is computed, without setter, [enumerable: false]
    and [configurable: false]. *)
Definition claimed_descriptor (property : Property) : Prop :=
  is_computed property = true /\ setter_of property = None
  /\ enumerable property = false /\ configurable property = false.

(** ** Callers of the two entry points *)

Inductive Operation : Type :=
| Attach (stack : Local StackTrace)
| Chain (stack : Local StackTrace).

Definition perform (context : Context) (operation : Operation) (error : Object) : Call unit :=
  match operation with
  | Attach stack => AttachStack context error stack
  | Chain stack => ChainStack context error stack
  end.

(** One call after the other, as long as the calls return. *)
Fixpoint perform_all (context : Context) (operations : list Operation) (error : Object)
  : Call unit :=
  match operations with
  | [] => (Returns tt, error)
  | operation :: later =>
      and_then (perform context operation error) (fun _ after =>
      perform_all context later after)
  end.

(** The error as a call left it. *)
Definition error_after {A : Type} (call : Call A) : Object := snd call.

(** One [ChainStack] call per boundary crossed, in the order crossed,
    as long as the calls return. *)
Fixpoint chain_all (context : Context) (error : Object) (captures : list (Local StackTrace))
  : Call unit :=
  match captures with
  | [] => (Returns tt, error)
  | stack :: later =>
      and_then (ChainStack context error stack) (fun _ chained =>
      chain_all context chained later)
  end.

(** The segment a capture renders to once it sits in a holder. *)
Definition segment (stack : Local StackTrace) : Outcome JSString :=
  RenderErrorStack (NewInstance stack).

Fixpoint segments (captures : list (Local StackTrace)) : Outcome (list JSString) :=
  match captures with
  | [] => Returns []
  | stack :: later =>
      first <- segment stack ;;
      rest <- segments later ;;
      Returns (first :: rest)
  end.

Definition boundary_marker : JSString := NewFromOneByte boundary.

(** Every later segment behind one boundary marker. *)
Fixpoint behind_markers (later : list JSString) : JSString :=
  match later with
  | [] => []
  | rendered :: rest => Concat (Concat boundary_marker rendered) (behind_markers rest)
  end.

(** ** Sample values *)

Definition ascii_frame (script function : string) (line column : Z) (eval : bool) (id : Z)
  : StackFrame :=
  {| GetScriptName := Some (v8_string script);
     GetFunctionName := Some (v8_string function);
     GetLineNumber := line;
     GetColumn := column;
     IsEval := eval;
     GetScriptId := id |}.

Definition named_frame : StackFrame := ascii_frame "a.js" "f" 1 2 false 7.

Definition sample_trace : StackTrace :=
  {| frames := [ named_frame;
                 ascii_frame "a.js" "" 3 4 false 7;
                 ascii_frame "" "" 5 6 true kNoScriptIdInfo;
                 ascii_frame "b.js" "" 8 9 true 11 ] |}.

Definition outer_trace : StackTrace :=
  {| frames := [ ascii_frame "host.js" "run" 10 3 false 21 ] |}.

Definition empty_trace : StackTrace := {| frames := [] |}.

Definition sloppy_context : Context := {| language_mode := Sloppy |}.
Definition strict_context : Context := {| language_mode := Strict |}.

(** An error that never passed through this file: nothing under the
    private symbol, no native trace, no [stack] property. *)
Definition bare_error : Object :=
  {| GetConstructorName := v8_string "Error";
     message := Some (v8_string "boom");
     private_stack := Undefined;
     native_stack_trace := None;
     stack_property := None;
     inherited_stack := None;
     extensible := true |}.

(** The same error with the trace V8 recorded when it was thrown. *)
Definition thrown_error : Object :=
  {| GetConstructorName := v8_string "Error";
     message := Some (v8_string "boom");
     private_stack := Undefined;
     native_stack_trace := Some outer_trace;
     stack_property := None;
     inherited_stack := None;
     extensible := true |}.

(** The same error after a copy flattened [stack] into a plain string. *)
Definition copied_error : Object :=
  {| GetConstructorName := v8_string "Error";
     message := Some (v8_string "boom");
     private_stack := Undefined;
     native_stack_trace := None;
     stack_property :=
       Some (DataProperty
               (Str (v8_string ("Error: boom" ++ String LF "    at a.js:1:1"))) []);
     inherited_stack := None;
     extensible := true |}.

(** The copied error after [Object.freeze]: its [stack] can be neither
    written nor defined anew, and nothing can be added to it. *)
Definition frozen_error : Object :=
  {| GetConstructorName := v8_string "Error";
     message := Some (v8_string "boom");
     private_stack := Undefined;
     native_stack_trace := None;
     stack_property :=
       Some (DataProperty
               (Str (v8_string ("Error: boom" ++ String LF "    at a.js:1:1")))
               [ReadOnly; DontDelete]);
     inherited_stack := None;
     extensible := false |}.

(** A flattened stack whose trace names a file with a non-ASCII letter:
    ["E"], newline, U+00E9. *)
Definition accented_stack : JSString := [69; 10; 233].

(** The rule for strings, on code units: unchanged after four spaces,
    from the first newline on otherwise, empty without a newline. *)
Fixpoint from_first_newline (s : JSString) : JSString :=
  match s with
  | [] => []
  | c :: rest => if c =? 10 then s else from_first_newline rest
  end.

Definition starts_with_four_spaces (s : JSString) : bool :=
  match s with
  | c0 :: c1 :: c2 :: c3 :: _ => (c0 =? 32) && (c1 =? 32) && (c2 =? 32) && (c3 =? 32)
  | _ => false
  end.

Definition claimed_render_string (s : JSString) : JSString :=
  if starts_with_four_spaces s then s else from_first_newline s.

(** Code units of ASCII text: 1 to 127. *)
Definition ascii_unit (c : Z) : Prop := 1 <= c <= 127.

(** One byte per code unit. *)
Fixpoint bytes_of_units (s : JSString) : string :=
  match s with
  | [] => ""
  | c :: rest => String (byte_of_Z c) (bytes_of_units rest)
  end.

(** ** Shapes of chain data *)

(** Chain data the renderer is written for: a string, a holder of a
    capture that can be rendered, or an array whose elements 0 and 1 are
    such values. *)
Inductive renderable : Value -> Prop :=
| renderable_string (s : JSString) :
    renderable (Str s)
| renderable_holder (trace : StackTrace) :
    forallb script_name_present (frames trace) = true ->
    renderable (NewInstance (Some trace))
| renderable_pair (element0 element1 : Value) (rest : list Value) :
    renderable element0 ->
    renderable element1 ->
    renderable (Array (element0 :: element1 :: rest)).

(** Modelled from the spec: a segment is stale when its source context
    was destroyed, which is when "dereferencing fails"; nothing in the
    sources says what destroys a context. *)
Definition stale (that : StackTraceHolder) : Prop :=
  Deref (stack_trace that) = None.

Definition stale_holder : StackTraceHolder := {| stack_trace := None |}.

(** ** ASCII text *)

Definition is_ascii_unit (c : Z) : bool := (1 <=? c) && (c <=? 127).

Definition is_ascii_string (s : JSString) : bool := forallb is_ascii_unit s.

Definition is_ascii_byte (b : ascii) : bool := is_ascii_unit (Z_of_byte b).

Fixpoint is_ascii_text (text : string) : bool :=
  match text with
  | EmptyString => true
  | String b rest => is_ascii_byte b && is_ascii_text rest
  end.

Definition has_newline (s : JSString) : bool := existsb (fun c => c =? 10) s.

(** A rendered trace body: nothing, or text that begins with a newline. *)
Definition is_trace_body (s : JSString) : bool :=
  match s with
  | [] => true
  | c :: _ => c =? 10
  end.

(** The first line of a [stack] string: constructor name, ": ", message. *)
Definition header_of (error : Object) (text : JSString) : JSString :=
  Concat (Concat (GetConstructorName error) (v8_string ": ")) text.

(** A name that is absent or ASCII. *)
Definition is_ascii_name (name : Local JSString) : bool :=
  match name with
  | None => true
  | Some s => is_ascii_string s
  end.

Definition has_ascii_names (frame : StackFrame) : bool :=
  is_ascii_name (GetScriptName frame) && is_ascii_name (GetFunctionName frame).

(** ** Chain data built by the two operations *)

(** The number of pairs met on the way down element 1. *)
Fixpoint boundaries (data : Value) : nat :=
  match data with
  | Array (_ :: older :: _) => S (boundaries older)
  | _ => O
  end.

Definition capture_of (operation : Operation) : Local StackTrace :=
  match operation with
  | Attach stack => stack
  | Chain stack => stack
  end.

(** A capture that [RenderSingleStack] renders. *)
Definition renders (stack : Local StackTrace) : bool :=
  match stack with
  | Some trace => forallb script_name_present (frames trace)
  | None => false
  end.

(** An error on which the installer has run with success: chain data
    under the private symbol and, as its own [stack], the accessor this
    file defines. *)
Definition carries_chain (error : Object) : Prop :=
  IsUndefined (GetPrivate error) = false /\ stack_property error = Some stack_accessor.

(** ** The private symbol *)

(** A private symbol, by the order in which the isolate made it. *)
Definition Private : Type := nat.

(** Modelled from the spec: [IsolateEnvironment::IsolateSpecific]
    (environment.h is not part of the sources) keeps one value per isolate
    behind a static: [Deref] reads it, empty before the first [Set]. The
    isolate is here the count of private symbols made so far, which
    [Private::New] advances, and the content of the static [holder] of
    [GetPrivateStackSymbol]. *)
Record Isolate : Type := {
  privates_made : nat;
  holder : MaybeLocal Private
}.

Definition Private_New (isolate : Isolate) : Private * Isolate :=
  (privates_made isolate,
   {| privates_made := S (privates_made isolate); holder := holder isolate |}).

Definition holder_Set (isolate : Isolate) (handle : Private) : Isolate :=
  {| privates_made := privates_made isolate; holder := Some handle |}.

Definition GetPrivateStackSymbol (isolate : Isolate) : Private * Isolate :=
  match holder isolate with
  | Some handle => (handle, isolate)
  | None =>
      let (handle, isolate) := Private_New isolate in
      (handle, holder_Set isolate handle)
  end.

(** [count] calls in a row: the symbols returned and the isolate left. *)
Fixpoint GetPrivateStackSymbol_times (count : nat) (isolate : Isolate)
  : list Private * Isolate :=
  match count with
  | O => ([], isolate)
  | S count' =>
      let (handle, isolate) := GetPrivateStackSymbol isolate in
      let (handles, isolate) := GetPrivateStackSymbol_times count' isolate in
      (handle :: handles, isolate)
  end.

(** ** Strings and streams *)

Lemma append_empty_r (s : string) : s ++ "" = s.
Proof.
  induction s as [|b s IH]; simpl; [reflexivity | now rewrite IH].
Qed.

Lemma append_associative (s t u : string) : (s ++ t) ++ u = s ++ t ++ u.
Proof.
  induction s as [|b s IH]; simpl; [reflexivity | now rewrite IH].
Qed.

Lemma utf8_of_code_point_not_empty (cp : Z) : utf8_of_code_point cp <> "".
Proof.
  unfold utf8_of_code_point.
  destruct (cp <? 0x80); [discriminate|].
  destruct (cp <? 0x800); [discriminate|].
  destruct (cp <? 0x10000); discriminate.
Qed.

Lemma WriteUtf8_not_empty (c : Z) (rest : JSString) : WriteUtf8 (c :: rest) <> "".
Proof.
  simpl. destruct rest as [|d rest'].
  - apply utf8_of_code_point_not_empty.
  - destruct (is_lead_surrogate c && is_trail_surrogate d).
    + pose proof (utf8_of_code_point_not_empty (combine_surrogates c d)) as H.
      destruct (utf8_of_code_point (combine_surrogates c d)); [contradiction | discriminate].
    + pose proof (utf8_of_code_point_not_empty c) as H.
      destruct (utf8_of_code_point c); [contradiction | discriminate].
Qed.

(** [fn_name.length() == 0] holds exactly for an absent or empty name. *)
Lemma fn_name_length_zero (frame : StackFrame) :
  Nat.eqb (length_ (Utf8Value_of (GetFunctionName frame))) 0 = no_function_name frame.
Proof.
  unfold no_function_name.
  destruct (GetFunctionName frame) as [[|c rest]|]; try reflexivity.
  unfold Utf8Value_of, length_.
  pose proof (WriteUtf8_not_empty c rest) as H.
  destruct (WriteUtf8 (c :: rest)); [contradiction | reflexivity].
Qed.

Lemma insert_Returns (buffer text : string) :
  Returns buffer << text = Returns (buffer ++ text).
Proof. reflexivity. Qed.

Lemma insert_int_Returns (buffer : string) (n : Z) :
  Returns buffer <<# n = Returns (buffer ++ decimal n).
Proof. reflexivity. Qed.

Lemma insert_c_str_Returns (buffer : string) (name : JSString) :
  Returns buffer <<* Utf8Value_of (Some name) = Returns (buffer ++ name_text (Some name)).
Proof. reflexivity. Qed.

Ltac stream_out :=
  repeat first
    [ rewrite insert_c_str_Returns
    | rewrite insert_int_Returns
    | rewrite insert_Returns ];
  repeat rewrite append_associative.

(** One turn of the loop appends the line of its frame. *)
Lemma render_frame_appends (frame : StackFrame) (buffer : string) :
  script_name_present frame = true ->
  render_frame frame (Returns buffer) = Returns (buffer ++ frame_line frame).
Proof.
  unfold script_name_present, names_script, is_synthetic, no_script_id.
  unfold render_frame, frame_line, frame_line_with, location, line_prefix.
  unfold is_synthetic, no_script_id.
  rewrite fn_name_length_zero.
  intros present.
  destruct (IsEval frame); [destruct (GetScriptId frame =? kNoScriptIdInfo)|]; simpl in present.
  - stream_out. reflexivity.
  - destruct (GetScriptName frame) as [script|]; [|discriminate].
    stream_out. reflexivity.
  - destruct (GetScriptName frame) as [script|]; [|discriminate].
    unfold no_function_name.
    destruct (GetFunctionName frame) as [[|c fn]|]; stream_out; reflexivity.
Qed.

Lemma frames_loop_appends (trace : StackTrace) (todo : list StackFrame) :
  forall (done : list StackFrame) (buffer : string),
    frames trace = (done ++ todo)%list ->
    forallb script_name_present todo = true ->
    frames_loop trace (List.length done) (List.length todo) (Returns buffer)
    = Returns (buffer ++ lines frame_line todo).
Proof.
  induction todo as [|frame todo IH]; intros done buffer split present; simpl.
  - now rewrite append_empty_r.
  - simpl in present. apply andb_true_iff in present as [here later].
    unfold GetFrame. rewrite split.
    rewrite nth_error_app2 by apply Nat.le_refl.
    rewrite Nat.sub_diag. simpl.
    rewrite (render_frame_appends frame buffer here).
    replace (S (List.length done)) with (List.length (done ++ [frame])%list)
      by (rewrite length_app; simpl; lia).
    rewrite (IH (done ++ [frame])%list).
    + now rewrite append_associative.
    + now rewrite <- app_assoc.
    + exact later.
Qed.

(** ** RenderSingleStack *)

Lemma RenderSingleStack_lines (trace : StackTrace) :
  forallb script_name_present (frames trace) = true ->
  RenderSingleStack (Some trace) = Returns (lines frame_line (frames trace)).
Proof.
  intros present.
  unfold RenderSingleStack, GetFrameCount.
  exact (frames_loop_appends trace (frames trace) [] "" eq_refl present).
Qed.

(** Once a null [char*] went into the stream nothing brings it back. *)
Lemma render_frame_undefined (frame : StackFrame) :
  render_frame frame Undefined_behaviour = Undefined_behaviour.
Proof.
  unfold render_frame.
  destruct (IsEval frame); [destruct (GetScriptId frame =? kNoScriptIdInfo)|];
    try reflexivity.
  destruct (Nat.eqb _ 0); reflexivity.
Qed.

Lemma frames_loop_undefined (trace : StackTrace) (remaining : nat) :
  forall ii, frames_loop trace ii remaining Undefined_behaviour = Undefined_behaviour.
Proof.
  induction remaining as [|remaining IH]; intros ii; simpl; [reflexivity|].
  destruct (GetFrame trace ii) as [frame|]; [|reflexivity].
  now rewrite render_frame_undefined.
Qed.

Lemma render_frame_without_script_name (frame : StackFrame) (buffer : string) :
  script_name_present frame = false ->
  render_frame frame (Returns buffer) = Undefined_behaviour.
Proof.
  unfold script_name_present, names_script, is_synthetic, no_script_id, render_frame.
  destruct (IsEval frame); [destruct (GetScriptId frame =? kNoScriptIdInfo)|];
    destruct (GetScriptName frame) as [script|]; simpl; try discriminate; intros _.
  - reflexivity.
  - destruct (Nat.eqb _ 0); [reflexivity|].
    destruct (GetFunctionName frame); reflexivity.
Qed.

(** A frame whose line would print a script name it does not have
    leaves the whole capture without rendering. *)
Lemma RenderSingleStack_without_script_name (trace : StackTrace) :
  forallb script_name_present (frames trace) = false ->
  RenderSingleStack (Some trace) = Undefined_behaviour.
Proof.
  unfold RenderSingleStack, GetFrameCount.
  generalize (@eq_refl _ (frames trace)).
  change (frames trace) with ([] ++ frames trace)%list at 2.
  change 0%nat with (@List.length StackFrame []).
  generalize (@nil StackFrame) as done. generalize "" as buffer.
  generalize (frames trace) at 2 3 4 as todo.
  induction todo as [|frame todo IH]; intros buffer done split missing; simpl in *.
  - discriminate.
  - unfold GetFrame. rewrite split.
    rewrite nth_error_app2 by apply Nat.le_refl.
    rewrite Nat.sub_diag. simpl.
    destruct (script_name_present frame) eqn:here.
    + rewrite (render_frame_appends frame buffer here).
      replace (S (List.length done)) with (List.length (done ++ [frame])%list)
        by (rewrite length_app; simpl; lia).
      apply IH; [now rewrite <- app_assoc | exact missing].
    + rewrite (render_frame_without_script_name frame buffer here).
      apply frames_loop_undefined.
Qed.

(** C2 (as amended): a capture whose frames have a script name wherever
    the line prints one renders as one line per frame, in frame order,
    each a newline, four spaces, "at " and one of: [[eval]:<line>:<col>]
    for a synthetic frame without script id, [[eval] (<script>:<line>:<col>]
    (not closed) for a synthetic frame with one, [<script>:<line>:<col>]
    for a frame without function name, and
    [<function> (<script>:<line>:<col>)], a space before the parenthesis,
    for a frame with one. *)
Theorem RenderSingleStack_one_line_per_frame (trace : StackTrace) :
  forallb script_name_present (frames trace) = true ->
  RenderSingleStack (Some trace) = Returns (lines frame_line (frames trace)).
Proof.
  exact (RenderSingleStack_lines trace).
Qed.

Lemma RenderSingleStack_one_line_per_frame_witness :
  forallb script_name_present (frames sample_trace) = true
  /\ RenderSingleStack (Some sample_trace)
     = Returns (String LF "    at f (a.js:1:2)" ++ String LF "    at a.js:3:4"
                ++ String LF "    at [eval]:5:6" ++ String LF "    at [eval] (b.js:8:9").
Proof.
  split; [reflexivity|].
  rewrite (RenderSingleStack_one_line_per_frame sample_trace); reflexivity.
Defined.

(** C2 as claimed fails on a frame with a function name: the code puts a
    space between the name and the parenthesis. *)
Lemma RenderSingleStack_claimed_line_counterexample :
  RenderSingleStack (Some {| frames := [named_frame] |})
  = Returns (String LF "    at f (a.js:1:2)")
  /\ lines claimed_frame_line [named_frame] = String LF "    at f(a.js:1:2)"
  /\ RenderSingleStack (Some {| frames := [named_frame] |})
     <> Returns (lines claimed_frame_line [named_frame]).
Proof.
  split; [reflexivity|]. split; [reflexivity|]. vm_compute. discriminate.
Qed.

(** ** The branch of RenderErrorStack for strings *)

(** C3 at a string with a non-ASCII letter behind the first newline: the
    UTF-8 bytes of the remainder come back as one code unit each, not as
    the substring. *)
Theorem RenderErrorStack_string_bytes_as_units :
  RenderErrorStack (Str accented_stack) = Returns [10; 195; 169]
  /\ claimed_render_string accented_stack = [10; 233].
Proof.
  split; reflexivity.
Qed.

(** On ASCII text the branch is the stated rule. *)

Lemma byte_of_Z_eqb (c d : Z) :
  0 <= c < 256 -> 0 <= d < 256 -> Ascii.eqb (byte_of_Z c) (byte_of_Z d) = (c =? d).
Proof.
  intros c_byte d_byte.
  destruct (Z.eqb_spec c d) as [->|different].
  - apply Ascii.eqb_refl.
  - apply Ascii.eqb_neq. intros same. apply different.
    apply (f_equal N_of_ascii) in same. unfold byte_of_Z in same.
    rewrite !N_ascii_embedding in same by lia.
    apply Z2N.inj in same; lia.
Qed.

Lemma Z_of_byte_of_Z (c : Z) : 0 <= c < 256 -> Z_of_byte (byte_of_Z c) = c.
Proof.
  intros c_byte. unfold Z_of_byte, byte_of_Z.
  rewrite N_ascii_embedding by lia. apply Z2N.id. lia.
Qed.

Lemma WriteUtf8_ascii (s : JSString) :
  Forall ascii_unit s -> WriteUtf8 s = bytes_of_units s.
Proof.
  induction 1 as [|c rest c_ascii rest_ascii IH]; [reflexivity|].
  unfold ascii_unit in c_ascii.
  assert (utf8_of_code_point c = String (byte_of_Z c) "") as one_byte.
  { unfold utf8_of_code_point. destruct (Z.ltb_spec c 0x80); [reflexivity | lia]. }
  assert (is_lead_surrogate c = false) as no_lead.
  { unfold is_lead_surrogate. destruct (Z.leb_spec 0xD800 c); [lia | reflexivity]. }
  change (WriteUtf8 (c :: rest))
    with (match rest with
          | d :: rest' =>
              if is_lead_surrogate c && is_trail_surrogate d
              then utf8_of_code_point (combine_surrogates c d) ++ WriteUtf8 rest'
              else utf8_of_code_point c ++ WriteUtf8 rest
          | [] => utf8_of_code_point c
          end).
  rewrite no_lead, one_byte. simpl.
  destruct rest as [|d rest']; [reflexivity|].
  now rewrite IH.
Qed.

Lemma c_str_ascii (s : JSString) :
  Forall ascii_unit s -> c_str (bytes_of_units s) = bytes_of_units s.
Proof.
  induction 1 as [|c rest c_ascii rest_ascii IH]; [reflexivity|].
  unfold ascii_unit in c_ascii. simpl.
  change NUL with (byte_of_Z 0). rewrite byte_of_Z_eqb by lia.
  destruct (Z.eqb_spec c 0); [lia|]. now rewrite IH.
Qed.

Lemma from_first_newline_ascii (s : JSString) :
  Forall ascii_unit s -> Forall ascii_unit (from_first_newline s).
Proof.
  induction 1 as [|c rest c_ascii rest_ascii IH]; simpl; [constructor|].
  destruct (c =? 10); [now constructor | exact IH].
Qed.

Lemma strchr_ascii (s : JSString) :
  Forall ascii_unit s ->
  strchr (bytes_of_units s) LF
  = match from_first_newline s with
    | [] => None
    | _ :: _ => Some (bytes_of_units (from_first_newline s))
    end.
Proof.
  induction 1 as [|c rest c_ascii rest_ascii IH]; [reflexivity|].
  unfold ascii_unit in c_ascii. simpl.
  change LF with (byte_of_Z 10). rewrite byte_of_Z_eqb by lia.
  destruct (c =? 10); [reflexivity | exact IH].
Qed.

Lemma NewFromOneByte_ascii (s : JSString) :
  Forall ascii_unit s -> NewFromOneByte (bytes_of_units s) = s.
Proof.
  induction 1 as [|c rest c_ascii rest_ascii IH]; [reflexivity|].
  unfold ascii_unit in c_ascii. simpl.
  rewrite Z_of_byte_of_Z by lia. now rewrite IH.
Qed.

Lemma indentation_ascii (s : JSString) :
  Forall ascii_unit s ->
  Ascii.eqb (char_at (bytes_of_units s) 0) SPACE
  && Ascii.eqb (char_at (bytes_of_units s) 1) SPACE
  && Ascii.eqb (char_at (bytes_of_units s) 2) SPACE
  && Ascii.eqb (char_at (bytes_of_units s) 3) SPACE
  = starts_with_four_spaces s.
Proof.
  intros all. change SPACE with (byte_of_Z 32).
  destruct all as [|c0 s c0_ascii all]; [reflexivity|].
  unfold ascii_unit in c0_ascii.
  destruct all as [|c1 s c1_ascii all];
    [cbn; rewrite andb_false_r; reflexivity|].
  unfold ascii_unit in c1_ascii.
  destruct all as [|c2 s c2_ascii all];
    [cbn; rewrite !andb_false_r; reflexivity|].
  unfold ascii_unit in c2_ascii.
  destruct all as [|c3 s c3_ascii all];
    [cbn; rewrite !andb_false_r; reflexivity|].
  unfold ascii_unit in c3_ascii.
  unfold char_at, starts_with_four_spaces. cbn [bytes_of_units get].
  now rewrite !byte_of_Z_eqb by lia.
Qed.

Lemma render_string_on_ascii (s : JSString) :
  Forall ascii_unit s ->
  RenderErrorStack (Str s) = Returns (claimed_render_string s).
Proof.
  intros all. simpl. unfold render_string, as_c_str, Utf8Value_of, str_, option_map.
  rewrite (WriteUtf8_ascii s all), (c_str_ascii s all), (indentation_ascii s all).
  unfold claimed_render_string.
  destruct (starts_with_four_spaces s); [reflexivity|].
  rewrite (strchr_ascii s all).
  pose proof (from_first_newline_ascii s all) as suffix.
  destruct (from_first_newline s) as [|c rest] eqn:found; [reflexivity|].
  now rewrite (NewFromOneByte_ascii _ suffix).
Qed.

(** A string that begins with four spaces comes back as it is. *)
Lemma render_string_indented (rest : JSString) :
  RenderErrorStack (Str (32 :: 32 :: 32 :: 32 :: rest))
  = Returns (32 :: 32 :: 32 :: 32 :: rest).
Proof.
  destruct rest; reflexivity.
Qed.

(** ** The installer *)

Lemma and_then_Returns {A B : Type} (call : Call A) (next : A -> Object -> Call B)
    (b : B) (after : Object) :
  and_then call next = (Returns b, after) ->
  exists a between, call = (Returns a, between) /\ next a between = (Returns b, after).
Proof.
  destruct call as [[a| |] between]; simpl; intros result; try discriminate.
  now exists a, between.
Qed.

(** On an error that takes the definition, the installer stores the data
    and defines the accessor. *)
Lemma AttachStackGetter_accepted (context : Context) (error : Object) (data : Value) :
  accepts_definition error = true ->
  AttachStackGetter context error data
  = (Returns tt,
     with_stack_property (with_private_stack error data)
       (Some (AccessorProperty ErrorStackGetter_callback None None DEFAULT [DontEnum]))).
Proof.
  intros accepted. unfold AttachStackGetter, SetPrivate, Unmaybe_call, SetAccessor. simpl.
  change (accepts_definition (with_private_stack error data))
    with (accepts_definition error).
  now rewrite accepted.
Qed.

(** On an error that does not, the data is stored all the same, and the
    call returns or raises with the language mode. *)
Lemma AttachStackGetter_refused (context : Context) (error : Object) (data : Value) :
  accepts_definition error = false ->
  AttachStackGetter context error data
  = (match language_mode context with
     | Sloppy => Returns tt
     | Strict => Throws
     end,
     with_private_stack error data).
Proof.
  intros refused. unfold AttachStackGetter, SetPrivate, Unmaybe_call, SetAccessor. simpl.
  change (accepts_definition (with_private_stack error data))
    with (accepts_definition error).
  rewrite refused. destruct (language_mode context); reflexivity.
Qed.

Lemma AttachStackGetter_stores (context : Context) (error : Object) (data : Value) :
  GetPrivate (error_after (AttachStackGetter context error data)) = data.
Proof.
  destruct (accepts_definition error) eqn:answer.
  - now rewrite (AttachStackGetter_accepted context error data answer).
  - rewrite (AttachStackGetter_refused context error data answer). reflexivity.
Qed.

Lemma AttachStackGetter_defined (context : Context) (error : Object) (data : Value)
    (outcome : Outcome unit) (after : Object) :
  AttachStackGetter context error data = (outcome, after) -> GetPrivate after = data.
Proof.
  intros call. pose proof (AttachStackGetter_stores context error data) as stored.
  now rewrite call in stored.
Qed.

(** C7 (as amended): on an error that takes the definition the installer
    defines [stack] as a computed property with the getter
    [ErrorStackGetter], no setter, and the one attribute [DontEnum]: it is
    not enumerable and, [DontDelete] not being set, stays configurable;
    an assignment to [stack] is swallowed by the property and changes
    nothing. *)
Theorem AttachStackGetter_descriptor (context : Context) (error : Object) (data : Value) :
  accepts_definition error = true ->
  exists after property,
    AttachStackGetter context error data = (Returns tt, after)
    /\ stack_property after = Some property
    /\ property = AccessorProperty ErrorStackGetter_callback None None DEFAULT [DontEnum]
    /\ is_computed property = true
    /\ setter_of property = None
    /\ enumerable property = false
    /\ configurable property = true
    /\ (forall value, Set_stack after value = Some after).
Proof.
  intros accepted.
  rewrite (AttachStackGetter_accepted context error data accepted).
  eexists. exists stack_accessor. repeat split.
Qed.

Lemma AttachStackGetter_descriptor_witness :
  exists after,
    AttachStackGetter sloppy_context copied_error (NewInstance (Some sample_trace))
    = (Returns tt, after)
    /\ stack_property after
       = Some (AccessorProperty ErrorStackGetter_callback None None DEFAULT [DontEnum])
    /\ Set_stack after (Str (v8_string "mine")) = Some after.
Proof.
  destruct (AttachStackGetter_descriptor sloppy_context copied_error
              (NewInstance (Some sample_trace)) eq_refl)
    as (after & property & call & defined & -> & _ & _ & _ & _ & swallowed).
  exists after. split; [exact call|]. split; [exact defined|]. apply swallowed.
Defined.

(** C7 as claimed fails: the property is not [configurable: false], and
    an assignment to [stack], which the error took before the installer
    ran, no longer reaches what [stack] reads as. *)
Lemma AttachStackGetter_descriptor_counterexample :
  stack_property
    (error_after (AttachStackGetter sloppy_context copied_error
                    (NewInstance (Some sample_trace))))
  = Some stack_accessor
  /\ configurable stack_accessor = true
  /\ ~ claimed_descriptor stack_accessor
  /\ (exists assigned,
         Set_stack copied_error (Str (v8_string "mine")) = Some assigned
         /\ fst (Get_stack assigned) = Returns (Str (v8_string "mine")))
  /\ (exists assigned,
         Set_stack
           (error_after (AttachStackGetter sloppy_context copied_error
                           (NewInstance (Some sample_trace))))
           (Str (v8_string "mine")) = Some assigned
         /\ fst (Get_stack assigned) <> Returns (Str (v8_string "mine"))).
Proof.
  split; [reflexivity|]. split; [reflexivity|]. split.
  - intros (_ & _ & _ & fixed). discriminate fixed.
  - split; eexists; (split; [reflexivity|]); [reflexivity|].
    vm_compute. discriminate.
Qed.

Lemma ChainStack_on_chained (context : Context) (error : Object) (stack : Local StackTrace) :
  IsUndefined (GetPrivate error) = false ->
  ChainStack context error stack
  = AttachStackGetter context error (Array_pair (NewInstance stack) (GetPrivate error)).
Proof.
  intros defined. unfold ChainStack. now rewrite defined.
Qed.

(** C6 at a frozen error: [ChainStack] stores the chain data and the
    definition of the accessor is refused. Called from sloppy code it
    returns, and [stack] still reads as the old string; called from
    strict code it raises with the data already stored. *)
Theorem chain_data_without_accessor_on_frozen_error :
  ChainStack sloppy_context frozen_error (Some sample_trace)
  = (Returns tt,
     with_private_stack frozen_error
       (Array [HolderInstance {| stack_trace := Some sample_trace |};
               Str (v8_string ("Error: boom" ++ String LF "    at a.js:1:1"))]))
  /\ has_stack_accessor
       (error_after (ChainStack sloppy_context frozen_error (Some sample_trace))) = false
  /\ fst (Get_stack
            (error_after (ChainStack sloppy_context frozen_error (Some sample_trace))))
     = Returns (Str (v8_string ("Error: boom" ++ String LF "    at a.js:1:1")))
  /\ ChainStack strict_context frozen_error (Some sample_trace)
     = (Throws,
        with_private_stack frozen_error
          (Array [HolderInstance {| stack_trace := Some sample_trace |};
                  Str (v8_string ("Error: boom" ++ String LF "    at a.js:1:1"))])).
Proof.
  repeat split.
Qed.

(** ** ChainStack on an error without chain data *)

(** C4: with nothing under the private symbol, a native trace becomes
    the older half of a new pair, wrapped in a holder; without one, a
    string read from [stack] becomes the older half; without either, the
    new capture is attached alone and no pair is made. The new capture is
    element 0 of the pair, the older half element 1. *)
Theorem ChainStack_on_empty_slot
    (context : Context) (error : Object) (stack : Local StackTrace) :
  IsUndefined (GetPrivate error) = true ->
  (forall existing_stack,
      native_stack_trace error = Some existing_stack ->
      ChainStack context error stack
      = AttachStackGetter context error
          (Array [HolderInstance {| stack_trace := stack |};
                  HolderInstance {| stack_trace := Some existing_stack |}])
      /\ GetPrivate (error_after (ChainStack context error stack))
         = Array [HolderInstance {| stack_trace := stack |};
                  HolderInstance {| stack_trace := Some existing_stack |}])
  /\ (forall text read,
         native_stack_trace error = None ->
         Get_stack error = (Returns (Str text), read) ->
         ChainStack context error stack
         = AttachStackGetter context read
             (Array [HolderInstance {| stack_trace := stack |}; Str text])
         /\ GetPrivate (error_after (ChainStack context error stack))
            = Array [HolderInstance {| stack_trace := stack |}; Str text])
  /\ (forall value read,
         native_stack_trace error = None ->
         Get_stack error = (Returns value, read) ->
         IsString value = false ->
         ChainStack context error stack
         = AttachStackGetter context read (HolderInstance {| stack_trace := stack |})
         /\ GetPrivate (error_after (ChainStack context error stack))
            = HolderInstance {| stack_trace := stack |}).
Proof.
  intros empty. unfold ChainStack. rewrite empty. split; [|split].
  - intros existing_stack native. rewrite native. simpl.
    split; [reflexivity | apply AttachStackGetter_stores].
  - intros text read native answer. rewrite native, answer. simpl.
    split; [reflexivity | apply AttachStackGetter_stores].
  - intros value read native answer plain. rewrite native, answer. simpl.
    rewrite plain, orb_true_r.
    split; [reflexivity | apply AttachStackGetter_stores].
Qed.

Lemma ChainStack_on_empty_slot_witness :
  GetPrivate (error_after (ChainStack sloppy_context thrown_error (Some sample_trace)))
  = Array [HolderInstance {| stack_trace := Some sample_trace |};
           HolderInstance {| stack_trace := Some outer_trace |}]
  /\ GetPrivate (error_after (ChainStack sloppy_context copied_error (Some sample_trace)))
     = Array [HolderInstance {| stack_trace := Some sample_trace |};
              Str (v8_string ("Error: boom" ++ String LF "    at a.js:1:1"))]
  /\ GetPrivate (error_after (ChainStack sloppy_context bare_error (Some sample_trace)))
     = HolderInstance {| stack_trace := Some sample_trace |}.
Proof.
  split; [|split].
  - destruct (ChainStack_on_empty_slot sloppy_context thrown_error (Some sample_trace)
                eq_refl) as (native & _ & _).
    apply (native outer_trace). reflexivity.
  - destruct (ChainStack_on_empty_slot sloppy_context copied_error (Some sample_trace)
                eq_refl) as (_ & flattened & _).
    apply (flattened _ copied_error); reflexivity.
  - destruct (ChainStack_on_empty_slot sloppy_context bare_error (Some sample_trace)
                eq_refl) as (_ & _ & alone).
    apply (alone Undefined bare_error); reflexivity.
Defined.

(** ** The branches of RenderErrorStack for holders and pairs *)

Lemma RenderErrorStack_holder (stack : Local StackTrace) :
  RenderErrorStack (NewInstance stack)
  = (rendered <- RenderSingleStack stack ;; Returns (NewFromUtf8 (c_str rendered))).
Proof. reflexivity. Qed.

(** The array branch as the source has it: element 1 first, the
    boundary line, then element 0. *)
Lemma RenderErrorStack_array (elements : list Value) :
  RenderErrorStack (Array elements)
  = (rendered_older <- RenderErrorStack (Array_Get elements 1) ;;
     rendered_newer <- RenderErrorStack (Array_Get elements 0) ;;
     Returns (Concat (Concat rendered_older boundary_marker) rendered_newer)).
Proof.
  destruct elements as [|element0 [|element1 rest]]; reflexivity.
Qed.

Lemma RenderErrorStack_pair (newer older : Value) :
  RenderErrorStack (Array_pair newer older)
  = (rendered_older <- RenderErrorStack older ;;
     rendered_newer <- RenderErrorStack newer ;;
     Returns (Concat (Concat rendered_older boundary_marker) rendered_newer)).
Proof. reflexivity. Qed.

(** ** The getter *)

Lemma Get_stack_accessor (error : Object) :
  has_stack_accessor error = true -> Get_stack error = (ErrorStackGetter error, error).
Proof.
  unfold has_stack_accessor, Get_stack.
  destruct (stack_property error)
    as [[value attributes|[] setter data settings attributes|getter attributes]|];
    simpl; intros computed; try discriminate; reflexivity.
Qed.

Lemma ErrorStackGetter_returns (error : Object) (text body : JSString) :
  message error = Some text ->
  RenderErrorStack (GetPrivate error) = Returns body ->
  ErrorStackGetter error
  = Returns (Str (Concat (Concat (GetConstructorName error) (v8_string ": "))
                         (Concat text body))).
Proof.
  intros current rendered. unfold ErrorStackGetter, RunCallback.
  rewrite current. simpl. now rewrite rendered.
Qed.

(** C5: a read of [stack] on an error with chain data returns the
    constructor name, ": ", the message the error has when it is read,
    and the rendered chain data; after the message is changed the next
    read carries the new message and the same trace. A read leaves the
    error as it is. *)
Theorem stack_read_has_current_message
    (error : Object) (body before after : JSString) :
  has_stack_accessor error = true ->
  RenderErrorStack (GetPrivate error) = Returns body ->
  message error = Some before ->
  Get_stack error
  = (Returns (Str (Concat (Concat (GetConstructorName error) (v8_string ": "))
                          (Concat before body))),
     error)
  /\ Get_stack (set_message error (Some after))
     = (Returns (Str (Concat (Concat (GetConstructorName error) (v8_string ": "))
                             (Concat after body))),
        set_message error (Some after)).
Proof.
  intros attached rendered current. split.
  - rewrite (Get_stack_accessor error attached).
    now rewrite (ErrorStackGetter_returns error before body).
  - rewrite (Get_stack_accessor (set_message error (Some after)) attached).
    now rewrite (ErrorStackGetter_returns (set_message error (Some after)) after body).
Qed.

Lemma stack_read_has_current_message_witness :
  fst (Get_stack (error_after (AttachStack sloppy_context bare_error
                                 (Some {| frames := [named_frame] |}))))
  = Returns (Str (v8_string ("Error: boom" ++ String LF "    at f (a.js:1:2)")))
  /\ fst (Get_stack (set_message
                       (error_after (AttachStack sloppy_context bare_error
                                       (Some {| frames := [named_frame] |})))
                       (Some (v8_string "fixed"))))
     = Returns (Str (v8_string ("Error: fixed" ++ String LF "    at f (a.js:1:2)"))).
Proof.
  destruct (stack_read_has_current_message
              (error_after (AttachStack sloppy_context bare_error
                              (Some {| frames := [named_frame] |})))
              (v8_string (String LF "    at f (a.js:1:2)")) (v8_string "boom")
              (v8_string "fixed") eq_refl eq_refl eq_refl) as [first second].
  split; [now rewrite first | now rewrite second].
Defined.

(** C10: a capture without frames renders as the empty string, and the
    [stack] of an error that holds only that capture reads as the
    constructor name, ": " and the message, with nothing behind. *)
Theorem stack_read_without_frames (error : Object) (trace : StackTrace) (text : JSString) :
  frames trace = [] ->
  has_stack_accessor error = true ->
  GetPrivate error = NewInstance (Some trace) ->
  message error = Some text ->
  RenderSingleStack (Some trace) = Returns ""
  /\ RenderErrorStack (GetPrivate error) = Returns Empty
  /\ Get_stack error
     = (Returns (Str (Concat (Concat (GetConstructorName error) (v8_string ": ")) text)),
        error).
Proof.
  intros none attached held current.
  assert (RenderSingleStack (Some trace) = Returns "") as single
    by (unfold RenderSingleStack, GetFrameCount; now rewrite none).
  assert (RenderErrorStack (GetPrivate error) = Returns Empty) as rendered
    by (rewrite held, RenderErrorStack_holder, single; reflexivity).
  repeat split; try assumption.
  rewrite (Get_stack_accessor error attached).
  rewrite (ErrorStackGetter_returns error text Empty current rendered).
  unfold Concat, Empty. now rewrite app_nil_r.
Qed.

Lemma stack_read_without_frames_witness :
  RenderSingleStack (Some empty_trace) = Returns ""
  /\ RenderErrorStack
       (GetPrivate (error_after (AttachStack sloppy_context bare_error (Some empty_trace))))
     = Returns Empty
  /\ fst (Get_stack (error_after (AttachStack sloppy_context bare_error (Some empty_trace))))
     = Returns (Str (v8_string "Error: boom")).
Proof.
  destruct (stack_read_without_frames
              (error_after (AttachStack sloppy_context bare_error (Some empty_trace)))
              empty_trace (v8_string "boom") eq_refl eq_refl eq_refl eq_refl)
    as (single & rendered & read).
  split; [exact single|]. split; [exact rendered|]. now rewrite read.
Defined.

(** ** Chains *)

Lemma bind_Returns {A B : Type} (m : Outcome A) (k : A -> Outcome B) (b : B) :
  bind m k = Returns b -> exists a, m = Returns a /\ k a = Returns b.
Proof.
  destruct m as [a| |]; simpl; intros result; try discriminate.
  now exists a.
Qed.

Lemma chain_all_renders (context : Context) (captures : list (Local StackTrace)) :
  forall (error after : Object) (rendered : JSString) (later : list JSString),
    IsUndefined (GetPrivate error) = false ->
    RenderErrorStack (GetPrivate error) = Returns rendered ->
    segments captures = Returns later ->
    chain_all context error captures = (Returns tt, after) ->
    IsUndefined (GetPrivate after) = false
    /\ RenderErrorStack (GetPrivate after)
       = Returns (Concat rendered (behind_markers later)).
Proof.
  induction captures as [|stack captures IH];
    intros error after rendered later defined so_far all run.
  - injection all as <-. injection run as <-. split; [exact defined|].
    simpl. unfold Concat. now rewrite app_nil_r.
  - simpl in all.
    apply bind_Returns in all as (first & here & all).
    apply bind_Returns in all as (rest & there & all).
    injection all as <-.
    simpl in run. apply and_then_Returns in run as ([] & next & step & run).
    rewrite (ChainStack_on_chained context error stack defined) in step.
    apply AttachStackGetter_defined in step.
    destruct (IH next after (Concat (Concat rendered boundary_marker) first) rest)
      as (kept & whole).
    + now rewrite step.
    + rewrite step, RenderErrorStack_pair, so_far. cbn [bind].
      unfold segment in here. now rewrite here.
    + exact there.
    + exact run.
    + split; [exact kept|].
      rewrite whole. simpl. unfold Concat. f_equal.
      now rewrite <- !app_assoc.
Qed.

(** The first crossing of an error that carries no trace of any kind
    attaches its capture alone; the crossings after it chain. *)
Lemma chain_all_first_crossing
    (context : Context) (error read : Object) (value : Value) (first : Local StackTrace)
    (captures : list (Local StackTrace)) :
  IsUndefined (GetPrivate error) = true ->
  native_stack_trace error = None ->
  Get_stack error = (Returns value, read) ->
  IsString value = false ->
  chain_all context error (first :: captures)
  = and_then (AttachStack context read first) (fun _ chained =>
    chain_all context chained captures).
Proof.
  intros empty native answer plain. simpl. unfold ChainStack.
  rewrite empty, native, answer. simpl. now rewrite plain, orb_true_r.
Qed.

(** An error thrown inside one context and then chained: the native
    trace is the oldest segment. *)
Lemma chain_all_from_native_trace
    (context : Context) (error chained : Object) (existing : StackTrace)
    (first : Local StackTrace) (captures : list (Local StackTrace))
    (oldest : JSString) (later : list JSString) :
  IsUndefined (GetPrivate error) = true ->
  native_stack_trace error = Some existing ->
  segment (Some existing) = Returns oldest ->
  segments (first :: captures) = Returns later ->
  chain_all context error (first :: captures) = (Returns tt, chained) ->
  RenderErrorStack (GetPrivate chained) = Returns (Concat oldest (behind_markers later)).
Proof.
  intros empty native here all run.
  simpl in all.
  apply bind_Returns in all as (newer & there & all).
  apply bind_Returns in all as (rest & beyond & all).
  injection all as <-.
  simpl in run. apply and_then_Returns in run as ([] & next & step & run).
  unfold ChainStack in step. rewrite empty, native in step. simpl in step.
  apply AttachStackGetter_defined in step.
  destruct (chain_all_renders context captures next chained
              (Concat (Concat oldest boundary_marker) newer) rest)
    as (_ & whole).
  - now rewrite step.
  - rewrite step. unfold segment in here, there.
    rewrite RenderErrorStack_pair, here. cbn [bind]. now rewrite there.
  - exact beyond.
  - exact run.
  - rewrite whole. simpl. unfold Concat. f_equal. now rewrite <- !app_assoc.
Qed.

(** C1: an error whose chain starts as the single capture of the first
    context and is then chained once for each of the N-1 boundaries it
    crosses renders as the segment of the oldest capture followed, in the
    order of the calls, by the N-1 later segments, each behind one
    boundary line (newline, four spaces, "at (<isolated-vm boundary>)"). *)
Theorem chain_renders_oldest_first
    (context : Context) (start chained : Object) (first : Local StackTrace)
    (captures : list (Local StackTrace)) (rendered : list JSString) :
  GetPrivate start = NewInstance first ->
  segments (first :: captures) = Returns rendered ->
  chain_all context start captures = (Returns tt, chained) ->
  exists oldest later,
    rendered = oldest :: later
    /\ segment first = Returns oldest
    /\ segments captures = Returns later
    /\ List.length later = List.length captures
    /\ boundary_marker = v8_string (String LF "    at (<isolated-vm boundary>)")
    /\ RenderErrorStack (GetPrivate chained)
       = Returns (Concat oldest (behind_markers later)).
Proof.
  intros single all run. simpl in all.
  apply bind_Returns in all as (oldest & here & all).
  apply bind_Returns in all as (later & there & all).
  injection all as <-.
  destruct (chain_all_renders context captures start chained oldest later)
    as (_ & whole).
  - now rewrite single.
  - rewrite single. exact here.
  - exact there.
  - exact run.
  - exists oldest, later. repeat split; try assumption.
    clear - there. revert later there.
    induction captures as [|stack captures IH]; intros later there.
    + now injection there as <-.
    + simpl in there.
      apply bind_Returns in there as (s & _ & there).
      apply bind_Returns in there as (rest & there' & there).
      injection there as <-. simpl. f_equal. now apply IH.
Qed.

Lemma chain_renders_oldest_first_witness :
  RenderErrorStack
    (GetPrivate
       (error_after
          (chain_all sloppy_context
             (error_after (AttachStack sloppy_context bare_error (Some outer_trace)))
             [Some {| frames := [named_frame] |}; Some empty_trace])))
  = Returns (v8_string (String LF "    at run (host.js:10:3)"
                        ++ String LF "    at (<isolated-vm boundary>)"
                        ++ String LF "    at f (a.js:1:2)"
                        ++ String LF "    at (<isolated-vm boundary>)")).
Proof.
  destruct (chain_renders_oldest_first sloppy_context
              (error_after (AttachStack sloppy_context bare_error (Some outer_trace)))
              (error_after
                 (chain_all sloppy_context
                    (error_after (AttachStack sloppy_context bare_error (Some outer_trace)))
                    [Some {| frames := [named_frame] |}; Some empty_trace]))
              (Some outer_trace)
              [Some {| frames := [named_frame] |}; Some empty_trace]
              [v8_string (String LF "    at run (host.js:10:3)");
               v8_string (String LF "    at f (a.js:1:2)"); []]
              eq_refl eq_refl eq_refl)
    as (oldest & later & parts & _ & _ & _ & _ & whole).
  injection parts as <- <-. exact whole.
Defined.

(** ** Chain data of other shapes *)

Lemma render_string_returns (s : JSString) : exists rendered, render_string s = Returns rendered.
Proof.
  unfold render_string, as_c_str, Utf8Value_of, str_, option_map.
  destruct (_ && _); [now exists s|].
  destruct (strchr _ LF) as [newline|]; eauto.
Qed.

(** C9 (as amended): the renderer returns a string for every string,
    every holder of a capture that can be rendered, and every array whose
    elements 0 and 1 are such values. *)
Theorem RenderErrorStack_returns_on_renderable (data : Value) :
  renderable data -> exists rendered, RenderErrorStack data = Returns rendered.
Proof.
  induction 1 as [s|trace present|element0 element1 rest _ [newer IH0] _ [older IH1]].
  - apply render_string_returns.
  - rewrite RenderErrorStack_holder.
    rewrite (RenderSingleStack_lines trace present). simpl. eauto.
  - rewrite RenderErrorStack_array. unfold Array_Get. simpl.
    rewrite IH1. simpl. rewrite IH0. simpl. eauto.
Qed.

Lemma RenderErrorStack_returns_on_renderable_witness :
  exists rendered,
    RenderErrorStack
      (Array_pair (NewInstance (Some sample_trace))
         (Array_pair (NewInstance (Some outer_trace)) (Str accented_stack)))
    = Returns rendered.
Proof.
  apply RenderErrorStack_returns_on_renderable.
  apply renderable_pair; [apply renderable_holder; reflexivity|].
  apply renderable_pair; [apply renderable_holder; reflexivity|].
  apply renderable_string.
Defined.

(** Whatever is neither a string, an array nor a holder instance is
    unwrapped as a holder all the same. *)
Lemma RenderErrorStack_other_shape (data : Value) :
  IsString data = false -> IsArray data = false -> Unwrap data = None ->
  RenderErrorStack data = Undefined_behaviour.
Proof.
  destruct data; simpl; intros not_string not_array not_holder;
    try discriminate; reflexivity.
Qed.

(** C9 as claimed fails: a value of another shape, or an array that
    lacks an element, is not rendered as the empty string. *)
Lemma RenderErrorStack_malformed_counterexample :
  RenderErrorStack PlainObject = Undefined_behaviour
  /\ RenderErrorStack Null = Undefined_behaviour
  /\ RenderErrorStack (Array [NewInstance (Some sample_trace)]) = Undefined_behaviour
  /\ RenderErrorStack PlainObject <> Returns Empty.
Proof.
  repeat split; try reflexivity. discriminate.
Qed.


(** * Further properties of the code *)

(** ** The string branch on ASCII text *)

Lemma is_ascii_string_Forall (s : JSString) :
  is_ascii_string s = true -> Forall ascii_unit s.
Proof.
  unfold is_ascii_string. rewrite forallb_forall. intros every.
  apply Forall_forall. intros c member. specialize (every c member).
  unfold is_ascii_unit in every. unfold ascii_unit. lia.
Qed.

Lemma Forall_is_ascii_string (s : JSString) :
  Forall ascii_unit s -> is_ascii_string s = true.
Proof.
  induction 1 as [|c rest c_ascii _ IH]; [reflexivity|].
  unfold ascii_unit in c_ascii. simpl. rewrite IH.
  unfold is_ascii_unit. destruct (Z.leb_spec 1 c); [|lia].
  destruct (Z.leb_spec c 127); [reflexivity | lia].
Qed.

(** X1: on a string of ASCII characters the string branch returns the
    string itself when it begins with four spaces, and otherwise what
    starts at its first newline, the empty string if it has none. *)
Theorem string_branch_on_ascii_text (s : JSString) :
  is_ascii_string s = true ->
  RenderErrorStack (Str s) = Returns (claimed_render_string s).
Proof.
  intros all. apply render_string_on_ascii. now apply is_ascii_string_Forall.
Qed.

Lemma string_branch_on_ascii_text_witness :
  RenderErrorStack (Str (v8_string ("Error: boom" ++ String LF "    at a.js:1:1")))
  = Returns (v8_string (String LF "    at a.js:1:1")).
Proof.
  exact (string_branch_on_ascii_text
           (v8_string ("Error: boom" ++ String LF "    at a.js:1:1")) eq_refl).
Defined.

Lemma WriteUtf8_ascii_prefix (prefix rest : JSString) :
  Forall ascii_unit prefix ->
  WriteUtf8 (prefix ++ rest)%list = bytes_of_units prefix ++ WriteUtf8 rest.
Proof.
  induction 1 as [|c prefix c_ascii _ IH]; [reflexivity|].
  unfold ascii_unit in c_ascii.
  assert (utf8_of_code_point c = String (byte_of_Z c) "") as one_byte.
  { unfold utf8_of_code_point. destruct (Z.ltb_spec c 0x80); [reflexivity | lia]. }
  assert (is_lead_surrogate c = false) as no_lead.
  { unfold is_lead_surrogate. destruct (Z.leb_spec 0xD800 c); [lia | reflexivity]. }
  change (WriteUtf8 ((c :: prefix) ++ rest)%list)
    with (match (prefix ++ rest)%list with
          | d :: rest' =>
              if is_lead_surrogate c && is_trail_surrogate d
              then utf8_of_code_point (combine_surrogates c d) ++ WriteUtf8 rest'
              else utf8_of_code_point c ++ WriteUtf8 (prefix ++ rest)%list
          | [] => utf8_of_code_point c
          end).
  rewrite no_lead, one_byte. simpl.
  destruct (prefix ++ rest)%list as [|d rest'] eqn:tail.
  - apply app_eq_nil in tail as [-> ->]. reflexivity.
  - now rewrite <- IH.
Qed.

Lemma WriteUtf8_NUL (rest : JSString) :
  WriteUtf8 (0 :: rest) = String NUL (WriteUtf8 rest).
Proof.
  destruct rest; reflexivity.
Qed.

Lemma c_str_stops_at_NUL (prefix : JSString) (behind : string) :
  Forall ascii_unit prefix ->
  c_str (bytes_of_units prefix ++ String NUL behind) = bytes_of_units prefix.
Proof.
  induction 1 as [|c prefix c_ascii _ IH]; [reflexivity|].
  unfold ascii_unit in c_ascii. simpl.
  change NUL with (byte_of_Z 0) at 1. rewrite byte_of_Z_eqb by lia.
  destruct (Z.eqb_spec c 0); [lia|]. now rewrite IH.
Qed.

(** X2: a NUL character ends what the string branch sees. Of a string
    that has ASCII text, then a NUL, then anything, and that does not
    begin with four spaces, only the text before the NUL is searched for
    the newline and returned from there on. *)
Theorem string_branch_stops_at_NUL (prefix rest : JSString) :
  is_ascii_string prefix = true ->
  starts_with_four_spaces prefix = false ->
  RenderErrorStack (Str (prefix ++ 0 :: rest)%list) = Returns (from_first_newline prefix).
Proof.
  intros ascii plain. apply is_ascii_string_Forall in ascii.
  simpl. unfold render_string, as_c_str, Utf8Value_of, str_, option_map.
  rewrite (WriteUtf8_ascii_prefix prefix (0 :: rest) ascii), WriteUtf8_NUL.
  rewrite (c_str_stops_at_NUL prefix _ ascii).
  rewrite (indentation_ascii prefix ascii), plain.
  rewrite (strchr_ascii prefix ascii).
  pose proof (from_first_newline_ascii prefix ascii) as suffix.
  destruct (from_first_newline prefix) as [|c behind]; [reflexivity|].
  now rewrite (NewFromOneByte_ascii _ suffix).
Qed.

Lemma string_branch_stops_at_NUL_witness :
  RenderErrorStack (Str ([69; 10; 32; 97] ++ 0 :: [10; 32; 98])%list) = Returns [10; 32; 97]
  /\ RenderErrorStack (Str ([69; 58] ++ 0 :: [10; 32; 98])%list) = Returns [].
Proof.
  split.
  - exact (string_branch_stops_at_NUL [69; 10; 32; 97] [10; 32; 98] eq_refl eq_refl).
  - exact (string_branch_stops_at_NUL [69; 58] [10; 32; 98] eq_refl eq_refl).
Defined.

Lemma from_first_newline_is_trace_body (s : JSString) :
  is_trace_body (from_first_newline s) = true.
Proof.
  induction s as [|c rest IH]; [reflexivity|]. simpl.
  destruct (c =? 10) eqn:newline; [exact newline | exact IH].
Qed.

Lemma claimed_render_string_trace_body (body : JSString) :
  is_trace_body body = true -> claimed_render_string body = body.
Proof.
  destruct body as [|c rest]; [reflexivity|]. simpl. intros newline.
  apply Z.eqb_eq in newline as ->.
  unfold claimed_render_string.
  destruct rest as [|c1 [|c2 [|c3 rest]]]; reflexivity.
Qed.

Lemma claimed_render_string_ascii (s : JSString) :
  Forall ascii_unit s -> Forall ascii_unit (claimed_render_string s).
Proof.
  intros all. unfold claimed_render_string.
  destruct (starts_with_four_spaces s); [exact all|].
  now apply from_first_newline_ascii.
Qed.

Lemma claimed_render_string_idempotent (s : JSString) :
  claimed_render_string (claimed_render_string s) = claimed_render_string s.
Proof.
  assert (claimed_render_string s = if starts_with_four_spaces s then s
                                    else from_first_newline s) as unfolded by reflexivity.
  destruct (starts_with_four_spaces s) eqn:indented; rewrite unfolded.
  - unfold claimed_render_string. now rewrite indented.
  - apply claimed_render_string_trace_body, from_first_newline_is_trace_body.
Qed.

(** X17: on ASCII text the string branch is idempotent: what it returns
    for a string it returns again when given that result. *)
Theorem string_branch_idempotent_on_ascii (s rendered : JSString) :
  is_ascii_string s = true ->
  RenderErrorStack (Str s) = Returns rendered ->
  RenderErrorStack (Str rendered) = Returns rendered.
Proof.
  intros ascii first. apply is_ascii_string_Forall in ascii.
  rewrite (render_string_on_ascii s ascii) in first. injection first as <-.
  rewrite (render_string_on_ascii _ (claimed_render_string_ascii s ascii)).
  now rewrite claimed_render_string_idempotent.
Qed.

Lemma string_branch_idempotent_on_ascii_witness :
  RenderErrorStack (Str (v8_string (String LF "    at a.js:1:1")))
  = Returns (v8_string (String LF "    at a.js:1:1")).
Proof.
  exact (string_branch_idempotent_on_ascii
           (v8_string ("Error: boom" ++ String LF "    at a.js:1:1"))
           (v8_string (String LF "    at a.js:1:1")) eq_refl eq_refl).
Defined.

(** ** A [stack] string that comes back as chain data *)

Lemma from_first_newline_behind_header (header body : JSString) :
  has_newline header = false ->
  is_trace_body body = true ->
  from_first_newline (header ++ body)%list = body.
Proof.
  intros none starts. induction header as [|c header IH]; simpl.
  - destruct body as [|c rest]; [reflexivity|]. simpl in *. now rewrite starts.
  - simpl in none. apply orb_false_iff in none as [here later].
    rewrite here. now apply IH.
Qed.

Lemma starts_with_four_spaces_behind_header (header body : JSString) :
  starts_with_four_spaces header = false ->
  is_trace_body body = true ->
  starts_with_four_spaces (header ++ body)%list = false.
Proof.
  intros plain starts.
  assert (forall rest, starts_with_four_spaces (10 :: rest) = false) as at_newline
    by (intros [|c1 [|c2 [|c3 rest]]]; reflexivity).
  destruct body as [|c body]; [now rewrite app_nil_r|].
  simpl in starts. apply Z.eqb_eq in starts as ->.
  destruct header as [|h0 [|h1 [|h2 [|h3 header]]]]; simpl.
  - apply at_newline.
  - destruct body as [|c2 [|c3 body]]; try reflexivity; now rewrite !andb_false_r.
  - destruct body as [|c3 body]; try reflexivity.
    now rewrite andb_false_r.
  - now rewrite andb_false_r.
  - exact plain.
Qed.

Lemma flattened_stack_renders (header body : JSString) :
  is_ascii_string header = true ->
  is_ascii_string body = true ->
  has_newline header = false ->
  starts_with_four_spaces header = false ->
  is_trace_body body = true ->
  RenderErrorStack (Str (header ++ body)%list) = Returns body.
Proof.
  intros ascii_header ascii_body one_line plain starts.
  assert (is_ascii_string (header ++ body)%list = true) as ascii
    by (unfold is_ascii_string in *; rewrite forallb_app, ascii_header, ascii_body;
        reflexivity).
  rewrite (render_string_on_ascii _ (is_ascii_string_Forall _ ascii)).
  unfold claimed_render_string.
  rewrite (starts_with_four_spaces_behind_header header body plain starts).
  now rewrite (from_first_newline_behind_header header body one_line starts).
Qed.

(** X3: the string read from [stack] renders, as chain data, to the
    trace it was made from. With an ASCII constructor name and message on
    one line (the line not beginning with four spaces) and chain data
    that renders to an ASCII trace body (empty, or beginning with a
    newline), the string branch strips exactly the first line. *)
Theorem stack_string_renders_to_its_trace (error : Object) (text body : JSString) :
  has_stack_accessor error = true ->
  message error = Some text ->
  RenderErrorStack (GetPrivate error) = Returns body ->
  is_ascii_string (header_of error text) = true ->
  has_newline (header_of error text) = false ->
  starts_with_four_spaces (header_of error text) = false ->
  is_ascii_string body = true ->
  is_trace_body body = true ->
  exists flattened,
    Get_stack error = (Returns (Str flattened), error)
    /\ RenderErrorStack (Str flattened) = Returns body.
Proof.
  intros attached current rendered ascii_header one_line plain ascii_body starts.
  exists (header_of error text ++ body)%list. split.
  - rewrite (Get_stack_accessor error attached).
    rewrite (ErrorStackGetter_returns error text body current rendered).
    unfold header_of, Concat. now rewrite <- !app_assoc.
  - now apply flattened_stack_renders.
Qed.

Lemma stack_string_renders_to_its_trace_witness :
  exists flattened,
    Get_stack (error_after (AttachStack sloppy_context bare_error (Some sample_trace)))
    = (Returns (Str flattened),
       error_after (AttachStack sloppy_context bare_error (Some sample_trace)))
    /\ RenderErrorStack (Str flattened)
       = Returns (v8_string (String LF "    at f (a.js:1:2)" ++ String LF "    at a.js:3:4"
                             ++ String LF "    at [eval]:5:6"
                             ++ String LF "    at [eval] (b.js:8:9")).
Proof.
  exact (stack_string_renders_to_its_trace
           (error_after (AttachStack sloppy_context bare_error (Some sample_trace)))
           (v8_string "boom")
           (v8_string (String LF "    at f (a.js:1:2)" ++ String LF "    at a.js:3:4"
                       ++ String LF "    at [eval]:5:6" ++ String LF "    at [eval] (b.js:8:9"))
           eq_refl eq_refl eq_refl eq_refl eq_refl eq_refl eq_refl eq_refl).
Defined.

(** ** When a capture renders, and to what *)

Lemma RenderSingleStack_Returns (trace : StackTrace) (text : string) :
  RenderSingleStack (Some trace) = Returns text ->
  forallb script_name_present (frames trace) = true
  /\ text = lines frame_line (frames trace).
Proof.
  intros rendered.
  destruct (forallb script_name_present (frames trace)) eqn:present.
  - rewrite (RenderSingleStack_lines trace present) in rendered.
    injection rendered as <-. now split.
  - rewrite (RenderSingleStack_without_script_name trace present) in rendered.
    discriminate.
Qed.

Lemma lines_app (line : StackFrame -> string) (first second : list StackFrame) :
  lines line (first ++ second)%list = lines line first ++ lines line second.
Proof.
  induction first as [|frame first IH]; simpl; [reflexivity|].
  now rewrite IH, append_associative.
Qed.

(** X7: rendering is frame by frame: frames put behind the frames of
    another capture render to the two texts one after the other. *)
Theorem RenderSingleStack_app (first second : list StackFrame) (text1 text2 : string) :
  RenderSingleStack (Some {| frames := first |}) = Returns text1 ->
  RenderSingleStack (Some {| frames := second |}) = Returns text2 ->
  RenderSingleStack (Some {| frames := (first ++ second)%list |}) = Returns (text1 ++ text2).
Proof.
  intros rendered1 rendered2.
  apply RenderSingleStack_Returns in rendered1 as [present1 ->].
  apply RenderSingleStack_Returns in rendered2 as [present2 ->].
  simpl in *. rewrite <- lines_app.
  apply (RenderSingleStack_lines {| frames := (first ++ second)%list |}).
  simpl. now rewrite forallb_app, present1, present2.
Qed.

Lemma RenderSingleStack_app_witness :
  RenderSingleStack (Some {| frames := (frames outer_trace ++ [named_frame])%list |})
  = Returns (String LF "    at run (host.js:10:3)" ++ String LF "    at f (a.js:1:2)").
Proof.
  exact (RenderSingleStack_app (frames outer_trace) [named_frame]
           (String LF "    at run (host.js:10:3)") (String LF "    at f (a.js:1:2)")
           eq_refl eq_refl).
Defined.

(** *** No NUL in a rendered capture *)

Lemma is_ascii_text_app (first second : string) :
  is_ascii_text (first ++ second) = is_ascii_text first && is_ascii_text second.
Proof.
  induction first as [|b first IH]; simpl; [reflexivity|].
  now rewrite IH, andb_assoc.
Qed.

Lemma c_str_ascii_text (text : string) : is_ascii_text text = true -> c_str text = text.
Proof.
  induction text as [|b text IH]; simpl; [reflexivity|].
  intros both. apply andb_true_iff in both as [here later].
  destruct (Ascii.eqb_spec b NUL) as [->|other]; [discriminate here|].
  now rewrite IH.
Qed.

Lemma string_of_uint_ascii (d : Decimal.uint) :
  is_ascii_text (NilEmpty.string_of_uint d) = true.
Proof.
  induction d; simpl; try reflexivity; exact IHd.
Qed.

Lemma decimal_ascii (n : Z) : is_ascii_text (decimal n) = true.
Proof.
  unfold decimal, NilEmpty.string_of_int.
  destruct (Z.to_int n) as [d|d]; simpl; apply string_of_uint_ascii.
Qed.

Lemma c_str_app (first second : string) :
  c_str first = first -> c_str (first ++ second) = first ++ c_str second.
Proof.
  induction first as [|b first IH]; simpl; [reflexivity|].
  destruct (Ascii.eqb b NUL); [discriminate|].
  intros [= fixed]. now rewrite (IH fixed).
Qed.

Lemma c_str_idempotent (buffer : string) : c_str (c_str buffer) = c_str buffer.
Proof.
  induction buffer as [|b buffer IH]; simpl; [reflexivity|].
  destruct (Ascii.eqb b NUL) eqn:terminator; simpl; [reflexivity|].
  now rewrite terminator, IH.
Qed.

Lemma c_str_name_text (name : Local JSString) : c_str (name_text name) = name_text name.
Proof.
  destruct name as [s|]; [apply c_str_idempotent | reflexivity].
Qed.

Lemma c_str_decimal (n : Z) : c_str (decimal n) = decimal n.
Proof. apply c_str_ascii_text, decimal_ascii. Qed.

Ltac no_NUL :=
  repeat first
    [ apply c_str_name_text
    | apply c_str_decimal
    | reflexivity
    | rewrite c_str_app by no_NUL; f_equal ].

Lemma c_str_location (frame : StackFrame) : c_str (location frame) = location frame.
Proof. unfold location. no_NUL. Qed.

Lemma c_str_frame_line (frame : StackFrame) : c_str (frame_line frame) = frame_line frame.
Proof.
  unfold frame_line, frame_line_with, line_prefix.
  destruct (is_synthetic frame); [destruct (no_script_id frame)|
                                  destruct (no_function_name frame)].
  - no_NUL.
  - rewrite c_str_app by reflexivity. f_equal.
    rewrite c_str_app by reflexivity. f_equal. apply c_str_location.
  - rewrite c_str_app by reflexivity. f_equal. apply c_str_location.
  - rewrite c_str_app by reflexivity. f_equal.
    rewrite c_str_app by apply c_str_name_text. f_equal.
    rewrite c_str_app by reflexivity. f_equal.
    rewrite c_str_app by apply c_str_location. reflexivity.
Qed.

Lemma c_str_lines (captured : list StackFrame) :
  c_str (lines frame_line captured) = lines frame_line captured.
Proof.
  induction captured as [|frame captured IH]; simpl; [reflexivity|].
  rewrite c_str_app by apply c_str_frame_line. now rewrite IH.
Qed.

(** X5: the text of a rendered capture holds no NUL, so handing it over
    as a C string loses nothing: the segment of a holder is the whole
    text, decoded from UTF-8. *)
Theorem rendered_capture_is_not_cut (stack : Local StackTrace) (text : string) :
  RenderSingleStack stack = Returns text ->
  c_str text = text
  /\ RenderErrorStack (NewInstance stack) = Returns (NewFromUtf8 text).
Proof.
  intros rendered.
  assert (c_str text = text) as whole.
  { destruct stack as [trace|]; [|discriminate].
    apply RenderSingleStack_Returns in rendered as [_ ->]. apply c_str_lines. }
  split; [exact whole|].
  rewrite RenderErrorStack_holder, rendered. simpl. now rewrite whole.
Qed.

Lemma rendered_capture_is_not_cut_witness :
  c_str (String LF "    at run (host.js:10:3)") = String LF "    at run (host.js:10:3)"
  /\ RenderErrorStack (NewInstance (Some outer_trace))
     = Returns (NewFromUtf8 (String LF "    at run (host.js:10:3)")).
Proof.
  exact (rendered_capture_is_not_cut (Some outer_trace)
           (String LF "    at run (host.js:10:3)") eq_refl).
Defined.

(** *** Captures with ASCII names *)

Lemma NewFromUtf8_ascii_text (text : string) :
  is_ascii_text text = true -> NewFromUtf8 text = NewFromOneByte text.
Proof.
  unfold NewFromUtf8.
  induction text as [|b text IH]; simpl; [reflexivity|].
  intros both. apply andb_true_iff in both as [here later].
  unfold is_ascii_byte, is_ascii_unit in here.
  unfold utf8_start.
  destruct (Z.leb_spec (Z_of_byte b) 0x7F); [|lia].
  simpl. now rewrite (IH later).
Qed.

Lemma NewFromOneByte_is_ascii_string (text : string) :
  is_ascii_text text = true -> is_ascii_string (NewFromOneByte text) = true.
Proof.
  induction text as [|b text IH]; simpl; [reflexivity|].
  intros both. apply andb_true_iff in both as [here later].
  unfold is_ascii_byte in here. now rewrite here, (IH later).
Qed.

Lemma bytes_of_units_ascii_text (s : JSString) :
  Forall ascii_unit s -> is_ascii_text (bytes_of_units s) = true.
Proof.
  induction 1 as [|c rest c_ascii _ IH]; [reflexivity|].
  unfold ascii_unit in c_ascii. simpl. rewrite IH.
  unfold is_ascii_byte. rewrite Z_of_byte_of_Z by lia.
  unfold is_ascii_unit.
  destruct (Z.leb_spec 1 c); [|lia]. destruct (Z.leb_spec c 127); [reflexivity | lia].
Qed.

Lemma name_text_ascii (name : Local JSString) :
  is_ascii_name name = true -> is_ascii_text (name_text name) = true.
Proof.
  destruct name as [s|]; [|reflexivity]. simpl. intros ascii.
  apply is_ascii_string_Forall in ascii.
  rewrite (WriteUtf8_ascii s ascii), (c_str_ascii s ascii).
  now apply bytes_of_units_ascii_text.
Qed.

Lemma frame_line_ascii (frame : StackFrame) :
  has_ascii_names frame = true -> is_ascii_text (frame_line frame) = true.
Proof.
  unfold has_ascii_names. intros names.
  apply andb_true_iff in names as [script function].
  apply name_text_ascii in script, function.
  unfold frame_line, frame_line_with, location, line_prefix.
  destruct (is_synthetic frame); [destruct (no_script_id frame)|
                                  destruct (no_function_name frame)];
    repeat (rewrite is_ascii_text_app
            || rewrite decimal_ascii || rewrite script || rewrite function);
    reflexivity.
Qed.

Lemma lines_ascii (captured : list StackFrame) :
  forallb has_ascii_names captured = true ->
  is_ascii_text (lines frame_line captured) = true.
Proof.
  induction captured as [|frame captured IH]; simpl; [reflexivity|].
  intros both. apply andb_true_iff in both as [here later].
  now rewrite is_ascii_text_app, (frame_line_ascii frame here), (IH later).
Qed.

Lemma frame_line_starts_with_newline (frame : StackFrame) :
  exists behind, frame_line frame = String LF behind.
Proof.
  unfold frame_line, frame_line_with, line_prefix.
  destruct (is_synthetic frame); [destruct (no_script_id frame)|
                                  destruct (no_function_name frame)];
    simpl; eauto.
Qed.

Lemma lines_is_trace_body (captured : list StackFrame) :
  is_trace_body (NewFromOneByte (lines frame_line captured)) = true.
Proof.
  destruct captured as [|frame captured]; [reflexivity|]. simpl.
  destruct (frame_line_starts_with_newline frame) as [behind ->]. reflexivity.
Qed.

(** X6: the segment of a capture whose names are ASCII is the text of
    its lines, one code unit for each byte; it is ASCII itself and is
    empty or begins with a newline. *)
Theorem ascii_capture_segment (trace : StackTrace) :
  forallb script_name_present (frames trace) = true ->
  forallb has_ascii_names (frames trace) = true ->
  RenderErrorStack (NewInstance (Some trace))
  = Returns (NewFromOneByte (lines frame_line (frames trace)))
  /\ is_ascii_string (NewFromOneByte (lines frame_line (frames trace))) = true
  /\ is_trace_body (NewFromOneByte (lines frame_line (frames trace))) = true.
Proof.
  intros present names.
  pose proof (lines_ascii (frames trace) names) as ascii.
  split; [|split].
  - rewrite RenderErrorStack_holder, (RenderSingleStack_lines trace present). simpl.
    rewrite (c_str_ascii_text _ ascii). now rewrite (NewFromUtf8_ascii_text _ ascii).
  - now apply NewFromOneByte_is_ascii_string.
  - apply lines_is_trace_body.
Qed.

Lemma ascii_capture_segment_witness :
  RenderErrorStack (NewInstance (Some sample_trace))
  = Returns (NewFromOneByte (lines frame_line (frames sample_trace)))
  /\ is_ascii_string (NewFromOneByte (lines frame_line (frames sample_trace))) = true
  /\ is_trace_body (NewFromOneByte (lines frame_line (frames sample_trace))) = true.
Proof.
  exact (ascii_capture_segment sample_trace eq_refl eq_refl).
Defined.

(** ** Runs of AttachStack and ChainStack *)

Lemma renderable_renders (data : Value) :
  renderable data -> exists rendered, RenderErrorStack data = Returns rendered.
Proof.
  induction 1 as [s|trace present|element0 element1 rest _ [newer IH0] _ [older IH1]].
  - apply render_string_returns.
  - rewrite RenderErrorStack_holder, (RenderSingleStack_lines trace present). simpl. eauto.
  - rewrite RenderErrorStack_array. unfold Array_Get. simpl.
    rewrite IH1. simpl. rewrite IH0. simpl. eauto.
Qed.

Lemma renderable_defined (data : Value) : renderable data -> IsUndefined data = false.
Proof. destruct 1; reflexivity. Qed.

Lemma renders_holder (stack : Local StackTrace) :
  renders stack = true -> renderable (NewInstance stack).
Proof.
  destruct stack as [trace|]; [|discriminate]. apply renderable_holder.
Qed.

(** One call on an error that carries a chain: it returns, whatever the
    language mode, with new data and the accessor in place. *)
Lemma perform_on_chain (context : Context) (operation : Operation) (error : Object) :
  carries_chain error ->
  exists data,
    perform context operation error
    = (Returns tt,
       with_stack_property (with_private_stack error data) (Some stack_accessor))
    /\ (data = NewInstance (capture_of operation)
        \/ data = Array_pair (NewInstance (capture_of operation)) (GetPrivate error)).
Proof.
  intros [defined accessor].
  assert (accepts_definition error = true) as accepted
    by (unfold accepts_definition; now rewrite accessor).
  destruct operation as [stack|stack]; simpl.
  - exists (NewInstance stack). split; [|now left].
    unfold AttachStack. now rewrite AttachStackGetter_accepted.
  - exists (Array_pair (NewInstance stack) (GetPrivate error)). split; [|now right].
    rewrite (ChainStack_on_chained context error stack defined).
    now rewrite AttachStackGetter_accepted.
Qed.

(** X8: once the installer has run with success on an error, every later
    run of [AttachStack] and [ChainStack] calls returns, in either
    language mode, and leaves chain data under the private symbol
    together with the accessor. *)
Theorem chain_and_accessor_stay_together
    (context : Context) (operations : list Operation) (error : Object) :
  carries_chain error ->
  exists after,
    perform_all context operations error = (Returns tt, after)
    /\ carries_chain after.
Proof.
  revert error.
  induction operations as [|operation later IH]; intros error carried; simpl.
  - now exists error.
  - destruct (perform_on_chain context operation error carried) as (data & step & shape).
    rewrite step. simpl. apply IH. split; [|reflexivity].
    destruct shape as [-> | ->]; reflexivity.
Qed.

Lemma chain_and_accessor_stay_together_witness :
  exists after,
    perform_all strict_context
      [Chain (Some sample_trace); Attach None; Chain (Some empty_trace)]
      (error_after (AttachStack sloppy_context thrown_error (Some outer_trace)))
    = (Returns tt, after)
    /\ carries_chain after.
Proof.
  apply chain_and_accessor_stay_together. split; reflexivity.
Defined.

(** X10: a run of [ChainStack] calls that returns on an error with chain
    data has put exactly one more pair around the data with every call. *)
Theorem chain_all_adds_one_pair_per_call
    (context : Context) (captures : list (Local StackTrace)) (error after : Object) :
  IsUndefined (GetPrivate error) = false ->
  chain_all context error captures = (Returns tt, after) ->
  boundaries (GetPrivate after)
  = (boundaries (GetPrivate error) + List.length captures)%nat.
Proof.
  revert error.
  induction captures as [|stack captures IH]; intros error defined run; simpl in run.
  - injection run as <-. simpl. lia.
  - apply and_then_Returns in run as ([] & next & step & run).
    rewrite (ChainStack_on_chained context error stack defined) in step.
    apply AttachStackGetter_defined in step.
    rewrite (IH next); [|now rewrite step | exact run].
    rewrite step. simpl. lia.
Qed.

Lemma chain_all_adds_one_pair_per_call_witness :
  boundaries
    (GetPrivate
       (error_after
          (chain_all sloppy_context
             (error_after (AttachStack sloppy_context bare_error (Some outer_trace)))
             [Some sample_trace; None; Some empty_trace])))
  = 3%nat.
Proof.
  exact (chain_all_adds_one_pair_per_call sloppy_context
           [Some sample_trace; None; Some empty_trace]
           (error_after (AttachStack sloppy_context bare_error (Some outer_trace)))
           _ eq_refl eq_refl).
Defined.

(** A run of [ChainStack] calls on an error with chain data returns
    when the calling code is sloppy, and in any mode when the accessor is
    already in place. *)
Lemma chain_all_returns (context : Context) (captures : list (Local StackTrace)) :
  forall error,
    IsUndefined (GetPrivate error) = false ->
    language_mode context = Sloppy \/ stack_property error = Some stack_accessor ->
    exists after, chain_all context error captures = (Returns tt, after).
Proof.
  induction captures as [|stack captures IH]; intros error defined quiet; simpl.
  - now exists error.
  - rewrite (ChainStack_on_chained context error stack defined).
    destruct (accepts_definition error) eqn:answer.
    + rewrite (AttachStackGetter_accepted context error _ answer). simpl.
      apply IH; [reflexivity | now right].
    + rewrite (AttachStackGetter_refused context error _ answer).
      destruct quiet as [sloppy|accessor].
      * rewrite sloppy. simpl. apply IH; [reflexivity | now left].
      * unfold accepts_definition in answer. rewrite accessor in answer.
        discriminate answer.
Qed.

(** X18: when [stack] is a getter written in script and the getter
    raises, [ChainStack] on an error without chain data and native trace
    raises too, before anything is stored: the error has no chain data
    afterwards and is otherwise as the getter left it. *)
Theorem ChainStack_raises_with_stack_getter
    (context : Context) (error : Object) (stack : Local StackTrace)
    (getter : ScriptGetter) (attributes : list PropertyAttribute)
    (view : ScriptView) (change : StackChange) :
  IsUndefined (GetPrivate error) = true ->
  native_stack_trace error = None ->
  stack_property error = Some (ScriptAccessor getter attributes) ->
  getter (view_of error) = (None, view, change) ->
  ChainStack context error stack = (Throws, apply_script error view change)
  /\ IsUndefined (GetPrivate (error_after (ChainStack context error stack))) = true.
Proof.
  intros empty native scripted raised.
  assert (ChainStack context error stack = (Throws, apply_script error view change)) as call.
  { unfold ChainStack. rewrite empty, native. simpl.
    unfold Get_stack. rewrite scripted. simpl. now rewrite raised. }
  split; [exact call|]. rewrite call. exact empty.
Qed.

Lemma ChainStack_raises_with_stack_getter_witness :
  fst (ChainStack sloppy_context
         (with_stack_property bare_error
            (Some (ScriptAccessor (fun view => (None, view, DeletesStack)) [])))
         (Some sample_trace))
  = Throws
  /\ IsUndefined
       (GetPrivate
          (error_after
             (ChainStack sloppy_context
                (with_stack_property bare_error
                   (Some (ScriptAccessor (fun view => (None, view, DeletesStack)) [])))
                (Some sample_trace)))) = true.
Proof.
  destruct (ChainStack_raises_with_stack_getter sloppy_context
              (with_stack_property bare_error
                 (Some (ScriptAccessor (fun view => (None, view, DeletesStack)) [])))
              (Some sample_trace) (fun view => (None, view, DeletesStack)) []
              (view_of bare_error) DeletesStack eq_refl eq_refl eq_refl eq_refl)
    as [call untouched].
  split; [now rewrite call | exact untouched].
Defined.

(** ** Reading [stack] after a run *)

Lemma perform_all_on_renderable_chain (context : Context) (operations : list Operation) :
  forall error,
    carries_chain error ->
    renderable (GetPrivate error) ->
    forallb (fun operation => renders (capture_of operation)) operations = true ->
    exists after,
      perform_all context operations error = (Returns tt, after)
      /\ carries_chain after
      /\ renderable (GetPrivate after)
      /\ GetConstructorName after = GetConstructorName error
      /\ message after = message error.
Proof.
  induction operations as [|operation later IH]; intros error carried shaped good.
  - exists error. split; [reflexivity|]. split; [exact carried|].
    split; [exact shaped|]. split; reflexivity.
  - simpl in good. apply andb_true_iff in good as [here there]. simpl.
    destruct (perform_on_chain context operation error carried) as (data & step & shape).
    rewrite step. simpl.
    destruct (IH (with_stack_property (with_private_stack error data)
                    (Some stack_accessor)))
      as (after & run & carried' & shaped' & name & text).
    + split; [|reflexivity]. destruct shape as [-> | ->]; reflexivity.
    + apply renders_holder in here.
      destruct shape as [-> | ->]; [exact here | now apply renderable_pair].
    + exact there.
    + exists after. split; [exact run|]. split; [exact carried'|].
      split; [exact shaped'|]. split; [exact name | exact text].
Qed.

(** X12: on an error that carries a chain that renders, after any run of
    [AttachStack] and [ChainStack] calls with captures that render,
    reading [stack] returns a string: the constructor name, ": ", the
    message and a trace. *)
Theorem stack_read_returns_after_run
    (context : Context) (operations : list Operation) (error : Object) (text : JSString) :
  carries_chain error ->
  renderable (GetPrivate error) ->
  forallb (fun operation => renders (capture_of operation)) operations = true ->
  message error = Some text ->
  exists after body,
    perform_all context operations error = (Returns tt, after)
    /\ RenderErrorStack (GetPrivate after) = Returns body
    /\ Get_stack after
       = (Returns (Str (Concat (Concat (GetConstructorName error) (v8_string ": "))
                               (Concat text body))),
          after).
Proof.
  intros carried shaped good current.
  destruct (perform_all_on_renderable_chain context operations error carried shaped good)
    as (after & run & [_ accessor] & shaped' & name & kept).
  destruct (renderable_renders _ shaped') as [body rendered].
  exists after, body. split; [exact run|]. split; [exact rendered|].
  rewrite Get_stack_accessor by (unfold has_stack_accessor; now rewrite accessor).
  rewrite <- name.
  rewrite (ErrorStackGetter_returns after text body); [reflexivity| |exact rendered].
  now rewrite kept.
Qed.

Lemma stack_read_returns_after_run_witness :
  exists after body,
    perform_all strict_context [Chain (Some sample_trace); Chain (Some empty_trace)]
      (error_after (AttachStack sloppy_context thrown_error (Some outer_trace)))
    = (Returns tt, after)
    /\ RenderErrorStack (GetPrivate after) = Returns body
    /\ Get_stack after
       = (Returns (Str (Concat (Concat (v8_string "Error") (v8_string ": "))
                               (Concat (v8_string "boom") body))),
          after).
Proof.
  apply (stack_read_returns_after_run strict_context
           [Chain (Some sample_trace); Chain (Some empty_trace)]
           (error_after (AttachStack sloppy_context thrown_error (Some outer_trace)))
           (v8_string "boom")).
  - split; reflexivity.
  - apply (renderable_holder outer_trace). reflexivity.
  - reflexivity.
  - reflexivity.
Defined.

(** X13: an error thrown inside one context, with the trace V8 recorded
    for it, and then chained: the native trace renders first, every
    capture chained afterwards follows behind one boundary line. *)
Theorem native_trace_is_oldest_segment
    (context : Context) (error chained : Object) (existing : StackTrace)
    (first : Local StackTrace) (captures : list (Local StackTrace))
    (oldest : JSString) (later : list JSString) :
  IsUndefined (GetPrivate error) = true ->
  native_stack_trace error = Some existing ->
  segment (Some existing) = Returns oldest ->
  segments (first :: captures) = Returns later ->
  chain_all context error (first :: captures) = (Returns tt, chained) ->
  RenderErrorStack (GetPrivate chained) = Returns (Concat oldest (behind_markers later)).
Proof.
  exact (chain_all_from_native_trace context error chained existing first captures
           oldest later).
Qed.

Lemma native_trace_is_oldest_segment_witness :
  RenderErrorStack
    (GetPrivate
       (error_after
          (chain_all sloppy_context thrown_error [Some {| frames := [named_frame] |}])))
  = Returns (v8_string (String LF "    at run (host.js:10:3)"
                        ++ String LF "    at (<isolated-vm boundary>)"
                        ++ String LF "    at f (a.js:1:2)")).
Proof.
  exact (native_trace_is_oldest_segment sloppy_context thrown_error _ outer_trace
           (Some {| frames := [named_frame] |}) []
           (v8_string (String LF "    at run (host.js:10:3)"))
           [v8_string (String LF "    at f (a.js:1:2)")]
           eq_refl eq_refl eq_refl eq_refl eq_refl).
Defined.

(** X14: when reading the message raises, the read of [stack] raises
    too, although the chain data renders. *)
Theorem stack_read_throws_with_message (error : Object) (body : JSString) :
  has_stack_accessor error = true ->
  message error = None ->
  RenderErrorStack (GetPrivate error) = Returns body ->
  Get_stack error = (Throws, error).
Proof.
  intros attached raised rendered.
  rewrite (Get_stack_accessor error attached).
  unfold ErrorStackGetter, RunCallback. now rewrite raised.
Qed.

Lemma stack_read_throws_with_message_witness :
  Get_stack
    (set_message (error_after (AttachStack sloppy_context bare_error (Some sample_trace)))
       None)
  = (Throws,
     set_message (error_after (AttachStack sloppy_context bare_error (Some sample_trace)))
       None).
Proof.
  exact (stack_read_throws_with_message
           (set_message
              (error_after (AttachStack sloppy_context bare_error (Some sample_trace)))
              None)
           (NewFromOneByte (lines frame_line (frames sample_trace)))
           eq_refl eq_refl eq_refl).
Defined.

(** ** Arrays of other lengths *)

(** X15: an array with fewer than two elements does not render, whatever
    its element is, and of a longer array only elements 0 and 1 count. *)
Theorem RenderErrorStack_array_length (elements : list Value) :
  ((List.length elements < 2)%nat ->
   RenderErrorStack (Array elements) = Undefined_behaviour)
  /\ (forall element0 element1 rest,
         elements = element0 :: element1 :: rest ->
         RenderErrorStack (Array elements)
         = RenderErrorStack (Array_pair element0 element1)).
Proof.
  split.
  - destruct elements as [|element0 [|element1 rest]]; simpl; intros short.
    + reflexivity.
    + reflexivity.
    + lia.
  - intros element0 element1 rest ->. reflexivity.
Qed.

Lemma RenderErrorStack_array_length_witness :
  RenderErrorStack (Array [NewInstance (Some sample_trace)]) = Undefined_behaviour
  /\ RenderErrorStack
       (Array [NewInstance (Some sample_trace); Str accented_stack; PlainObject])
     = RenderErrorStack (Array_pair (NewInstance (Some sample_trace)) (Str accented_stack)).
Proof.
  split.
  - apply (proj1 (RenderErrorStack_array_length [NewInstance (Some sample_trace)])).
    simpl. lia.
  - exact (proj2 (RenderErrorStack_array_length
                    [NewInstance (Some sample_trace); Str accented_stack; PlainObject])
             _ _ _ eq_refl).
Defined.

(** ** GetPrivateStackSymbol *)

Lemma GetPrivateStackSymbol_cached (count : nat) (isolate : Isolate) (handle : Private) :
  holder isolate = Some handle ->
  GetPrivateStackSymbol_times count isolate = (repeat handle count, isolate).
Proof.
  intros cached. induction count as [|count IH]; simpl; [reflexivity|].
  unfold GetPrivateStackSymbol. rewrite cached. now rewrite IH.
Qed.

(** X16: however often it is called in an isolate, [GetPrivateStackSymbol]
    returns one and the same symbol, and at most one symbol is made. *)
Theorem GetPrivateStackSymbol_one_symbol (count : nat) (isolate : Isolate) :
  exists handle,
    fst (GetPrivateStackSymbol_times count isolate) = repeat handle count
    /\ (privates_made (snd (GetPrivateStackSymbol_times count isolate))
        <= S (privates_made isolate))%nat.
Proof.
  destruct (holder isolate) as [handle|] eqn:cached.
  - exists handle. rewrite (GetPrivateStackSymbol_cached count isolate handle cached).
    simpl. split; [reflexivity | lia].
  - exists (privates_made isolate).
    destruct count as [|count]; simpl.
    + split; [reflexivity | lia].
    + assert (GetPrivateStackSymbol isolate
              = (privates_made isolate,
                 {| privates_made := S (privates_made isolate);
                    holder := Some (privates_made isolate) |})) as first
        by (unfold GetPrivateStackSymbol, Private_New, holder_Set; now rewrite cached).
      rewrite first.
      rewrite (GetPrivateStackSymbol_cached count
                 {| privates_made := S (privates_made isolate);
                    holder := Some (privates_made isolate) |}
                 (privates_made isolate) eq_refl).
      simpl. split; [reflexivity | lia].
Qed.

(** ** Stale segments *)

Lemma NewFromUtf8_behind_newline (behind : string) :
  NewFromUtf8 (String LF behind) = 10 :: NewFromUtf8 behind.
Proof. reflexivity. Qed.

Lemma holder_segment_Returns (that : StackTraceHolder) (rendered : JSString) :
  RenderErrorStack (HolderInstance that) = Returns rendered ->
  exists trace,
    Deref (stack_trace that) = Some trace
    /\ rendered = NewFromUtf8 (lines frame_line (frames trace)).
Proof.
  destruct that as [handle]. change (HolderInstance {| stack_trace := handle |})
    with (NewInstance handle).
  rewrite RenderErrorStack_holder. intros result.
  apply bind_Returns in result as (text & single & result).
  injection result as <-.
  destruct handle as [trace|]; [|discriminate].
  exists trace. split; [reflexivity|].
  apply RenderSingleStack_Returns in single as [_ ->].
  now rewrite c_str_lines.
Qed.

(** C8 (as amended): the renderer never asks whether the context of a
    capture is still alive and has nothing to fall back on for a stale
    segment. Whenever a holder segment renders to a string, the handle
    of its capture still dereferences, and the string is empty exactly
    when that capture has no frames; a pair renders to a string only
    when both of its sides do, and then to the older side, the boundary
    line and the newer side. *)
Theorem only_live_segments_render :
  (forall (that : StackTraceHolder) (rendered : JSString),
      RenderErrorStack (HolderInstance that) = Returns rendered ->
      ~ stale that
      /\ exists trace,
           Deref (stack_trace that) = Some trace
           /\ (rendered = Empty <-> frames trace = []))
  /\ (forall (newer older : Value) (rendered : JSString),
         RenderErrorStack (Array [newer; older]) = Returns rendered ->
         exists rendered_older rendered_newer,
           RenderErrorStack older = Returns rendered_older
           /\ RenderErrorStack newer = Returns rendered_newer
           /\ rendered
              = Concat (Concat rendered_older
                          (v8_string (String LF "    at (<isolated-vm boundary>)")))
                  rendered_newer).
Proof.
  split.
  - intros that rendered result.
    destruct (holder_segment_Returns that rendered result) as (trace & live & ->).
    split; [unfold stale; now rewrite live|].
    exists trace. split; [exact live|].
    destruct (frames trace) as [|frame captured]; simpl.
    + split; reflexivity.
    + destruct (frame_line_starts_with_newline frame) as [behind ->]. simpl.
      rewrite NewFromUtf8_behind_newline. split; discriminate.
  - intros newer older rendered result.
    change (Array [newer; older]) with (Array_pair newer older) in result.
    rewrite RenderErrorStack_pair in result.
    apply bind_Returns in result as (rendered_older & first & result).
    apply bind_Returns in result as (rendered_newer & second & result).
    injection result as <-.
    now exists rendered_older, rendered_newer.
Qed.

Lemma only_live_segments_render_witness :
  (~ stale {| stack_trace := Some outer_trace |}
   /\ exists trace,
        Deref (stack_trace {| stack_trace := Some outer_trace |}) = Some trace
        /\ (v8_string (String LF "    at run (host.js:10:3)") = Empty <-> frames trace = []))
  /\ exists rendered_older rendered_newer,
       RenderErrorStack (Str accented_stack) = Returns rendered_older
       /\ RenderErrorStack (NewInstance (Some empty_trace)) = Returns rendered_newer
       /\ Concat (Concat [10; 195; 169] boundary_marker) []
          = Concat (Concat rendered_older
                      (v8_string (String LF "    at (<isolated-vm boundary>)")))
              rendered_newer.
Proof.
  split.
  - exact (proj1 only_live_segments_render {| stack_trace := Some outer_trace |}
             (v8_string (String LF "    at run (host.js:10:3)")) eq_refl).
  - exact (proj2 only_live_segments_render (NewInstance (Some empty_trace))
             (Str accented_stack) (Concat (Concat [10; 195; 169] boundary_marker) [])
             eq_refl).
Defined.

(** C8 as claimed fails: a holder whose handle no longer refers to a
    capture is passed on unchecked; neither it nor a chain that contains
    it renders, and the read of [stack] does not return. *)
Lemma RenderErrorStack_stale_counterexample :
  stale stale_holder
  /\ RenderErrorStack (HolderInstance stale_holder) = Undefined_behaviour
  /\ RenderErrorStack (HolderInstance stale_holder) <> Returns Empty
  /\ RenderErrorStack (Array_pair (NewInstance (Some sample_trace)) (HolderInstance stale_holder))
     = Undefined_behaviour
  /\ fst (Get_stack
            (error_after
               (AttachStackGetter sloppy_context bare_error
                  (Array_pair (NewInstance (Some sample_trace))
                     (HolderInstance stale_holder)))))
     = Undefined_behaviour.
Proof.
  repeat split; try reflexivity. discriminate.
Qed.
